(** * RideConnect: proximity visibility, route summaries and store reconciliation

    A shallow embedding of the client logic of the RideConnect application
    ([src/store.ts], [src/components/MapView.tsx], [UserList], and the
    great-circle helper [getDistance]) together with the properties its
    specification states about it.

    Conventions of the embedding:
    - a JavaScript [number] is an IEEE 754 binary64 value, i.e. a primitive
      [float]; arithmetic and comparisons are the primitive ones, and the
      integer-producing runtime functions ([Math.floor], [Math.round], [%],
      [toFixed]) are computed on the exact dyadic value of the float;
    - a JavaScript string is a [string] of bytes (UTF-8 for the few non-ASCII
      literals of the source);
    - arrays are lists, [T | null] is [option T];
    - the zustand store is a record threaded through a small free monad of
      store programs whose effects are [get], [set], backend requests and
      console output. *)

From Stdlib Require Import ZArith List String Ascii Bool Lia.
From Stdlib Require Import DecimalString Sorting.Sorted.
From Stdlib Require Import Floats.
Import ListNotations.

Set Implicit Arguments.

(** A decimal literal denotes the nearest binary64 value, as it does in
    JavaScript. *)
#[local] Set Warnings "-inexact-float".

Local Open Scope string_scope.
Local Open Scope list_scope.

(* ================================================================== *)
(** * The JavaScript [number] runtime *)
(* ================================================================== *)

Module JSNumber.

Definition number := float.

(** The integer [n] as a binary64 value (correctly rounded). *)
Definition of_Z (n : Z) : number :=
  SF2Prim (binary_normalize prec emax n 0 false).

(** [floor ((-1)^s * m * 2^e)] *)
Definition floorZ (s : bool) (m : positive) (e : Z) : Z :=
  let v := cond_Zopp s (Zpos m) in
  if (0 <=? e)%Z then (v * 2 ^ e)%Z else (v / 2 ^ (- e))%Z.

(** [floor ((-1)^s * m * 2^e + 1/2)]: the nearest integer, ties towards
    plus infinity. *)
Definition roundZ (s : bool) (m : positive) (e : Z) : Z :=
  let v := cond_Zopp s (Zpos m) in
  if (0 <=? e)%Z then (v * 2 ^ e)%Z
  else ((2 * v + 2 ^ (- e)) / 2 ^ (- e + 1))%Z.

(** Is [m * 2^e] an integer? *)
Definition integral (m : positive) (e : Z) : bool :=
  if (0 <=? e)%Z then true else (Zpos m mod 2 ^ (- e) =? 0)%Z.

(** [Math.floor] *)
Definition Math_floor (x : number) : number :=
  match Prim2SF x with
  | S754_finite s m e =>
      if (0 <=? e)%Z then x
      else if integral m e then x
      else of_Z (floorZ s m e)
  | _ => x
  end.

(** [Math.round]: the integral number closest to [x], the larger one on a
    tie; a result of zero keeps the sign of [x]. *)
Definition Math_round (x : number) : number :=
  match Prim2SF x with
  | S754_finite s m e =>
      if (0 <=? e)%Z then x
      else
        let n := roundZ s m e in
        if (n =? 0)%Z then (if s then neg_zero else zero) else of_Z n
  | _ => x
  end.

(** The [%] operator on numbers (the remainder has the sign of the
    dividend and is always exact). *)
Definition remainder (x y : number) : number :=
  match Prim2SF x with
  | S754_nan => nan
  | S754_infinity _ => nan
  | S754_zero _ =>
      match Prim2SF y with
      | S754_nan => nan
      | S754_zero _ => nan
      | _ => x
      end
  | S754_finite sx mx ex =>
      match Prim2SF y with
      | S754_nan => nan
      | S754_zero _ => nan
      | S754_infinity _ => x
      | S754_finite _ my ey =>
          let e := Z.min ex ey in
          let X := (Zpos mx * 2 ^ (ex - e))%Z in
          let Y := (Zpos my * 2 ^ (ey - e))%Z in
          let r := (X mod Y)%Z in
          if (r =? 0)%Z then (if sx then neg_zero else zero)
          else SF2Prim (binary_normalize prec emax (cond_Zopp sx r) e false)
      end
  end.

(** Decimal digits of a non-negative integer. *)
Definition decimal (n : Z) : string :=
  NilZero.string_of_uint (N.to_uint (Z.to_N n)).

(** [n] written with at least [w] digits (leading zeros). *)
Fixpoint pad_left (w : nat) (s : string) : string :=
  if (String.length s <? w)%nat then
    match w with
    | O => s
    | S w' => String "0" (pad_left w' s)
    end
  else s.

Definition ten21 : Z := 10 ^ 21.

(** Below [2^53] every integer is a number of its own and the numbers
    next to it are at least one half away, so that the shortest digits
    that read back as the number are its own decimal digits. *)
Definition two53 : Z := 2 ^ 53.

Section ToString.

(** [Number::toString] on the numbers outside the fragment computed
    below (non-integral values and magnitudes from 2^53 on, which are
    printed with the shortest digits that read back as the number, padded
    with zeros or followed by an exponent). *)
Variable toString_other : number -> string.

(** [Number::toString] (radix 10). *)
Definition toString (x : number) : string :=
  match Prim2SF x with
  | S754_nan => "NaN"
  | S754_infinity false => "Infinity"
  | S754_infinity true => "-Infinity"
  | S754_zero _ => "0"
  | S754_finite s m e =>
      if integral m e && (floorZ false m e <? two53)%Z
      then (if s then "-" else EmptyString) ++ decimal (floorZ false m e)
      else toString_other x
  end.

(** [Number.prototype.toFixed(f)] for [0 <= f <= 100]. *)
Definition toFixed (f : nat) (x : number) : string :=
  match Prim2SF x with
  | S754_finite s m e =>
      if (ten21 <=? floorZ false m e)%Z then toString x
      else
        let p := (10 ^ Z.of_nat f)%Z in
        let n := roundZ false (m * Z.to_pos p) e in
        (if s then "-" else EmptyString)
          ++ decimal (n / p)
          ++ match f with
             | O => EmptyString
             | _ => "." ++ pad_left f (decimal (n mod p))
             end
  | S754_zero _ =>
      "0" ++ match f with
             | O => EmptyString
             | _ => "." ++ pad_left f "0"
             end
  | _ => toString x
  end.

End ToString.

End JSNumber.

Import JSNumber.

(* ================================================================== *)
(** * Geo math: [getDistance] (haversine) *)
(* ================================================================== *)

Module Location.
Record t : Type := mk { lat : number; lng : number }.
End Location.

(** [Math.PI] *)
Definition Math_PI : number := 0x1.921fb54442d18p+1%float.

(** [Math.sqrt] is the correctly rounded IEEE 754 square root. *)
Definition Math_sqrt : number -> number := PrimFloat.sqrt.

Section Geo.

(** [Math.sin], [Math.cos] and [Math.atan2] are approximated by the
    JavaScript engine; the embedding is parametric in them. *)
Variables Math_sin Math_cos : number -> number.
Variable Math_atan2 : number -> number -> number.

Local Open Scope float_scope.

Definition deg2rad (deg : number) : number :=
  deg * (Math_PI / 180).

(** Helper to calculate distance in km. *)
Definition getDistance (loc1 loc2 : Location.t) : number :=
  let R := 6371 in
  let dLat := deg2rad (Location.lat loc2 - Location.lat loc1) in
  let dLon := deg2rad (Location.lng loc2 - Location.lng loc1) in
  let a :=
    Math_sin (dLat / 2) * Math_sin (dLat / 2) +
    Math_cos (deg2rad (Location.lat loc1)) *
      Math_cos (deg2rad (Location.lat loc2)) *
      Math_sin (dLon / 2) *
      Math_sin (dLon / 2) in
  let c := 2 * Math_atan2 (Math_sqrt a) (Math_sqrt (1 - a)) in
  let d := R * c in
  d.

(** Modelled from the spec: [getDistance] of [src/utils], which the map
    and list components import and call with four coordinates; its file is
    not among the sources.  The spec describes it as the haversine
    distance [haversineKm (viewer.position, entity.position)] in
    kilometres, which is the helper above. *)
Definition utils_getDistance (lat1 lng1 lat2 lng2 : number) : number :=
  getDistance (Location.mk lat1 lng1) (Location.mk lat2 lng2).


End Geo.

(* ================================================================== *)
(** * Data model of the store *)
(* ================================================================== *)

Inductive Role : Type := driver | passenger.

Definition Role_eqb (r1 r2 : Role) : bool :=
  match r1, r2 with
  | driver, driver | passenger, passenger => true
  | _, _ => false
  end.

(** A row of the [users] table as the backend delivers it. *)
Module UserRow.
Record t : Type := mk {
  id : string;
  name : string;
  role : Role;
  lat : option number;
  lng : option number;
  is_online : bool;
  is_premium : bool
}.
End UserRow.

Module User.
Record t : Type := mk {
  id : string;
  name : string;
  role : Role;
  lat : option number;
  lng : option number;
  is_online : bool;
  is_premium : bool;
  (* Kept for component compatibility *)
  location : option Location.t;
  isOnline : bool;
  isPremium : bool
}.
End User.

(** Map DB row to User with compatibility fields. *)
Definition mapUser (row : UserRow.t) : User.t :=
  User.mk
    (UserRow.id row)
    (UserRow.name row)
    (UserRow.role row)
    (UserRow.lat row)
    (UserRow.lng row)
    (UserRow.is_online row)
    (UserRow.is_premium row)
    match UserRow.lat row, UserRow.lng row with
    | Some la, Some ln => Some (Location.mk la ln)
    | _, _ => None
    end
    (UserRow.is_online row)
    (UserRow.is_premium row).

(* ================================================================== *)
(** * Visibility filter ([MapView] and [UserList]) *)
(* ================================================================== *)

Section Visibility.

Variables Math_sin Math_cos : number -> number.
Variable Math_atan2 : number -> number -> number.

Local Open Scope float_scope.

Definition visibilityRadius (currentUser : User.t) : number :=
  if User.isPremium currentUser then 5 else 1.

(** The callback of [users.filter] in [MapView], [position] being the
    viewer's own coordinates. *)
Definition MapView_isVisible
    (currentUser : User.t) (position : number * number) (u : User.t) : bool :=
  if String.eqb (User.id u) (User.id currentUser) then false
  else if negb (User.isOnline u) then false
  else match User.location u with
       | None => false
       | Some loc =>
           if Role_eqb (User.role u) (User.role currentUser) then false
           else
             let distance :=
               utils_getDistance Math_sin Math_cos Math_atan2
                 (fst position) (snd position)
                 (Location.lat loc) (Location.lng loc) in
             distance <=? visibilityRadius currentUser
       end.

(** [visibleUsers] of [MapView]; [None] stands for the early return that
    renders the waiting screen when there is no session or no position. *)
Definition MapView_visibleUsers
    (currentUser : option User.t) (users : list User.t) : option (list User.t) :=
  match currentUser with
  | None => None
  | Some cu =>
      match User.location cu with
      | None => None
      | Some l =>
          let position := (Location.lat l, Location.lng l) in
          Some (filter (MapView_isVisible cu position) users)
      end
  end.

(** [visibleUsers] of [UserList], which reads the coordinates from
    [currentUser.location] inside the callback. *)
Definition UserList_visibleUsers
    (currentUser : option User.t) (users : list User.t) : option (list User.t) :=
  match currentUser with
  | None => None
  | Some cu =>
      match User.location cu with
      | None => None
      | Some l =>
          Some (filter
                  (fun u =>
                     if String.eqb (User.id u) (User.id cu) then false
                     else if negb (User.isOnline u) then false
                     else match User.location u with
                          | None => false
                          | Some loc =>
                              if Role_eqb (User.role u) (User.role cu) then false
                              else
                                let distance :=
                                  utils_getDistance Math_sin Math_cos Math_atan2
                                    (Location.lat l) (Location.lng l)
                                    (Location.lat loc) (Location.lng loc) in
                                distance <=? visibilityRadius cu
                          end)
                  users)
      end
  end.

End Visibility.

(* ================================================================== *)
(** * Messages *)
(* ================================================================== *)

(** [new Date(s).getTime()] for the ISO 8601 date-times with an explicit
    offset that the backend stores in [created_at]
    ([YYYY-MM-DDTHH:MM:SS], an optional fraction, then [Z] or [+HH:MM] /
    [-HH:MM]).  Other inputs are outside the fragment modelled here and are
    treated as invalid dates, whose time is [NaN]. *)
Module JSDate.

Definition digit_of (c : ascii) : option Z :=
  let n := nat_of_ascii c in
  if ((48 <=? n) && (n <=? 57))%nat then Some (Z.of_nat (n - 48)) else None.

Fixpoint read_digits (n : nat) (acc : Z) (s : string) : option (Z * string) :=
  match n with
  | O => Some (acc, s)
  | S n' =>
      match s with
      | String c rest =>
          match digit_of c with
          | Some d => read_digits n' (10 * acc + d)%Z rest
          | None => None
          end
      | EmptyString => None
      end
  end.

Definition expect (c : ascii) (s : string) : option string :=
  match s with
  | String c' rest => if Ascii.eqb c c' then Some rest else None
  | EmptyString => None
  end.

(** Skips the digits of the fraction beyond the milliseconds. *)
Fixpoint skip_digits (s : string) : string :=
  match s with
  | String c rest =>
      match digit_of c with
      | Some _ => skip_digits rest
      | None => s
      end
  | EmptyString => s
  end.

(** Up to three digits of a fraction, as milliseconds. *)
Fixpoint read_millis (n : nat) (acc : Z) (s : string) : Z * string :=
  match n with
  | O => (acc, skip_digits s)
  | S n' =>
      match s with
      | String c rest =>
          match digit_of c with
          | Some d => read_millis n' (10 * acc + d)%Z rest
          | None => ((acc * 10 ^ Z.of_nat n)%Z, s)
          end
      | EmptyString => ((acc * 10 ^ Z.of_nat n)%Z, s)
      end
  end.

Definition leap (y : Z) : bool :=
  ((y mod 4 =? 0) && (negb (y mod 100 =? 0) || (y mod 400 =? 0)))%Z.

Definition days_in_month (y m : Z) : Z :=
  if (m =? 2)%Z then (if leap y then 29 else 28)%Z
  else if ((m =? 4) || (m =? 6) || (m =? 9) || (m =? 11))%Z then 30%Z
  else 31%Z.

(** Days between 1970-01-01 and the given civil date. *)
Definition days_from_civil (y m d : Z) : Z :=
  let y' := (if m <=? 2 then y - 1 else y)%Z in
  let era := (y' / 400)%Z in
  let yoe := (y' - era * 400)%Z in
  let mp := (if 2 <? m then m - 3 else m + 9)%Z in
  let doy := ((153 * mp + 2) / 5 + d - 1)%Z in
  let doe := (yoe * 365 + yoe / 4 - yoe / 100 + doy)%Z in
  (era * 146097 + doe - 719468)%Z.

Definition bind {A B} (o : option A) (k : A -> option B) : option B :=
  match o with
  | Some a => k a
  | None => None
  end.

Definition parse_offset (s : string) : option Z :=
  match s with
  | "Z" => Some 0%Z
  | String c rest =>
      let sign :=
        if Ascii.eqb c "+" then Some 1%Z
        else if Ascii.eqb c "-" then Some (-1)%Z
        else None in
      bind sign (fun sg =>
      bind (read_digits 2 0 rest) (fun '(hh, rest) =>
      bind (expect ":" rest) (fun rest =>
      bind (read_digits 2 0 rest) (fun '(mm, rest) =>
      match rest with
      | EmptyString =>
          if ((hh <=? 23) && (mm <=? 59))%Z
          then Some (sg * (hh * 60 + mm))%Z
          else None
      | _ => None
      end))))
  | EmptyString => None
  end.

(** Milliseconds since the epoch. *)
Definition parse (s : string) : option Z :=
  bind (read_digits 4 0 s) (fun '(y, s) =>
  bind (expect "-" s) (fun s =>
  bind (read_digits 2 0 s) (fun '(mo, s) =>
  bind (expect "-" s) (fun s =>
  bind (read_digits 2 0 s) (fun '(d, s) =>
  bind (expect "T" s) (fun s =>
  bind (read_digits 2 0 s) (fun '(h, s) =>
  bind (expect ":" s) (fun s =>
  bind (read_digits 2 0 s) (fun '(mi, s) =>
  bind (expect ":" s) (fun s =>
  bind (read_digits 2 0 s) (fun '(sec, s) =>
  let '(ms, s) :=
    match expect "." s with
    | Some s' => read_millis 3 0 s'
    | None => (0%Z, s)
    end in
  bind (parse_offset s) (fun off =>
  if ((1 <=? mo) && (mo <=? 12) && (1 <=? d) && (d <=? days_in_month y mo)
      && (h <=? 23) && (mi <=? 59) && (sec <=? 59))%Z
  then
    Some ((((days_from_civil y mo d * 24 + h) * 60 + mi - off) * 60 + sec)
            * 1000 + ms)%Z
  else None)))))))))))).

Definition getTime (s : string) : number :=
  match parse s with
  | Some ms => of_Z ms
  | None => nan
  end.

End JSDate.

(** A row of the [messages] table as the backend delivers it. *)
Module MessageRow.
Record t : Type := mk {
  id : string;
  from_user : string;
  to_user : string;
  text : string;
  created_at : string
}.
End MessageRow.

Module Message.
Record t : Type := mk {
  id : string;
  from_user : string;
  to_user : string;
  text : string;
  created_at : string;
  (* Compatibility aliases *)
  from : string;
  to : string;
  timestamp : number
}.
End Message.

(** Map DB row to Message with compatibility fields. *)
Definition mapMessage (row : MessageRow.t) : Message.t :=
  Message.mk
    (MessageRow.id row)
    (MessageRow.from_user row)
    (MessageRow.to_user row)
    (MessageRow.text row)
    (MessageRow.created_at row)
    (MessageRow.from_user row)
    (MessageRow.to_user row)
    (JSDate.getTime (MessageRow.created_at row)).

(* ================================================================== *)
(** * The store ([useStore]) *)
(* ================================================================== *)

(** The handle of a realtime subscription. *)
Inductive RealtimeChannel : Type := Channel (topic : string).

Record AppState : Type := mkState {
  currentUser : option User.t;
  users : list User.t;
  messages : list Message.t;
  channel : option RealtimeChannel
}.

(** The argument of zustand's [set]: the fields to overwrite. *)
Record Partial : Type := mkPartial {
  set_currentUser : option (option User.t);
  set_users : option (list User.t);
  set_messages : option (list Message.t);
  set_channel : option (option RealtimeChannel)
}.

Definition merge (s : AppState) (p : Partial) : AppState :=
  mkState
    (match set_currentUser p with Some v => v | None => currentUser s end)
    (match set_users p with Some v => v | None => users s end)
    (match set_messages p with Some v => v | None => messages s end)
    (match set_channel p with Some v => v | None => channel s end).

Definition only_currentUser (v : option User.t) : Partial :=
  mkPartial (Some v) None None None.
Definition only_users (v : list User.t) : Partial :=
  mkPartial None (Some v) None None.
Definition only_messages (v : list Message.t) : Partial :=
  mkPartial None None (Some v) None.
Definition only_channel (v : option RealtimeChannel) : Partial :=
  mkPartial None None None (Some v).

(** What the backend answers to a query: [{ data, error }]. *)
Record PostgrestError : Type := mkError { message : string }.

Record Response (T : Type) : Type := mkResponse {
  data : option T;
  error : option PostgrestError
}.

(** The columns an [update] request sets ([last_seen] carries the wall
    clock, which the embedding leaves out). *)
Inductive UserUpdate : Type :=
| UpdateLocation (lat lng : number)
| UpdateOnline (is_online : bool)
| UpdatePremium (is_premium : bool).

(** The calls made on the Supabase client and on [window], indexed by the
    type of their answer. *)
Inductive Request : Type -> Type :=
| InsertUser (name : string) (role : Role) : Request (Response UserRow.t)
| SelectUsers : Request (Response (list UserRow.t))
| SelectMessages (uid : string) : Request (Response (list MessageRow.t))
| SubscribeChanges (topic : string) : Request RealtimeChannel
| UpdateUser (id : string) (upd : UserUpdate) : Request unit
| DeleteUser (id : string) : Request unit
| InsertMessage (from_user to_user text : string) : Request (Response MessageRow.t)
| RemoveChannel (ch : RealtimeChannel) : Request unit
| OnBeforeUnloadDeleteUser (id : string) : Request unit.

(** A request without its index, as recorded in a trace. *)
Inductive Issued : Type := issued (R : Type) (req : Request R).

(** Store programs.  [Call] is a synchronous call on the client (including
    requests whose promise is dropped); [Await] issues a request and
    suspends the operation until the answer arrives. *)
Inductive Prog (A : Type) : Type :=
| Ret (a : A)
| Get (k : AppState -> Prog A)
| SetState (p : Partial) (k : Prog A)
| Call (R : Type) (req : Request R) (k : R -> Prog A)
| Await (R : Type) (req : Request R) (k : R -> Prog A)
| ConsoleError (msg : string) (k : Prog A).

Arguments Ret {A} a.
Arguments Get {A} k.
Arguments SetState {A} p k.
Arguments Call {A R} req k.
Arguments Await {A R} req k.
Arguments ConsoleError {A} msg k.

Fixpoint bind {A B : Type} (p : Prog A) (f : A -> Prog B) : Prog B :=
  match p with
  | Ret a => f a
  | Get k => Get (fun s => bind (k s) f)
  | SetState q k => SetState q (bind k f)
  | Call req k => Call req (fun r => bind (k r) f)
  | Await req k => Await req (fun r => bind (k r) f)
  | ConsoleError msg k => ConsoleError msg (bind k f)
  end.

Declare Scope prog_scope.
Delimit Scope prog_scope with prog.
Notation "x <- p ;; q" := (bind p (fun x => q))
  (at level 61, p at next level, right associativity) : prog_scope.
Notation "p ;; q" := (bind p (fun _ => q))
  (at level 61, right associativity) : prog_scope.

Definition get : Prog AppState := Get (fun s => Ret s).
Definition set (p : Partial) : Prog unit := SetState p (Ret tt).
Definition call {R} (req : Request R) : Prog R := Call req (fun r => Ret r).
Definition await {R} (req : Request R) : Prog R := Await req (fun r => Ret r).
Definition console_error (msg : string) : Prog unit := ConsoleError msg (Ret tt).
Definition skip : Prog unit := Ret tt.

(** The backend: how each request is answered. *)
Definition Backend : Type := forall R, Request R -> R.

Definition answer (b : Backend) {R : Type} (req : Request R) : R := b R req.

(** What a run of an operation produces: the value its promise resolves
    to, the store afterwards, the requests issued and the console output,
    both in order. *)
Record Outcome (A : Type) : Type := mkOutcome {
  result : A;
  state : AppState;
  requests : list Issued;
  console : list string
}.

(** Runs a program to completion against a backend, with no other event
    interleaved. *)
Fixpoint run {A : Type} (b : Backend) (p : Prog A) (s : AppState) : Outcome A :=
  match p with
  | Ret a => mkOutcome a s [] []
  | Get k => run b (k s) s
  | SetState q k => run b k (merge s q)
  | Call req k =>
      let o := run b (k (answer b req)) s in
      mkOutcome (result o) (state o) (issued req :: requests o) (console o)
  | Await req k =>
      let o := run b (k (answer b req)) s in
      mkOutcome (result o) (state o) (issued req :: requests o) (console o)
  | ConsoleError msg k =>
      let o := run b k s in
      mkOutcome (result o) (state o) (requests o) (msg :: console o)
  end.

(** An operation that has run up to its next [await]. *)
Inductive Suspended (A : Type) : Type :=
| Finished (a : A)
| Waiting (R : Type) (req : Request R) (k : R -> Prog A).

Arguments Finished {A} a.
Arguments Waiting {A R} req k.

(** Runs a program up to its next [await]: the synchronous stretch during
    which no other event can be delivered. *)
Fixpoint advance {A : Type} (b : Backend) (p : Prog A) (s : AppState)
  : Outcome (Suspended A) :=
  match p with
  | Ret a => mkOutcome (Finished a) s [] []
  | Get k => advance b (k s) s
  | SetState q k => advance b k (merge s q)
  | Call req k =>
      let o := advance b (k (answer b req)) s in
      mkOutcome (result o) (state o) (issued req :: requests o) (console o)
  | Await req k => mkOutcome (Waiting req k) s [issued req] []
  | ConsoleError msg k =>
      let o := advance b k s in
      mkOutcome (result o) (state o) (requests o) (msg :: console o)
  end.

Section Store.

(** [supabaseConfigured] of [src/lib/supabase]: whether the backend URL
    and key are set in the environment. *)
Variable supabaseConfigured : bool.

Local Open Scope prog_scope.

(** The payload of a change of the [users] table. *)
Inductive UsersChange : Type :=
| INSERT (new : UserRow.t)
| UPDATE (new : UserRow.t)
| DELETE (old_id : string).

(** The callback subscribed to every change of the [users] table. *)
Definition onUsersChange (payload : UsersChange) : Prog unit :=
  s <- get ;;
  let users := users s in
  match payload with
  | INSERT new =>
      let newUser := mapUser new in
      set (only_users (users ++ [newUser]))
  | UPDATE new =>
      let updatedUser := mapUser new in
      set (only_users
             (map (fun u =>
                     if String.eqb (User.id u) (User.id updatedUser)
                     then updatedUser else u)
                  users)) ;;
      (* Update currentUser if it's us *)
      s' <- get ;;
      match currentUser s' with
      | Some cu =>
          if String.eqb (User.id cu) (User.id updatedUser)
          then set (only_currentUser (Some updatedUser))
          else skip
      | None => skip
      end
  | DELETE old_id =>
      set (only_users
             (filter (fun u => negb (String.eqb (User.id u) old_id)) users))
  end.

(** The callback subscribed to the inserts of the [messages] table. *)
Definition onMessageInsert (new : MessageRow.t) : Prog unit :=
  let newMessage := mapMessage new in
  s <- get ;;
  match currentUser s with
  | Some cu =>
      (* Only add if it involves us *)
      if String.eqb (Message.from_user newMessage) (User.id cu)
         || String.eqb (Message.to_user newMessage) (User.id cu)
      then
        (* Avoid duplicates *)
        match find (fun m => String.eqb (Message.id m) (Message.id newMessage))
                   (messages s) with
        | None => set (only_messages (messages s ++ [newMessage]))
        | Some _ => skip
        end
      else skip
  | None => skip
  end.

Definition connect (name : string) (role : Role) : Prog (option string) :=
  (* Check if Supabase is configured *)
  if negb supabaseConfigured then
    Ret (Some "Supabase is not configured. Please set VITE_SUPABASE_URL and VITE_SUPABASE_ANON_KEY.")
  else
    (* 1. Insert user into Supabase *)
    r <- await (InsertUser name role) ;;
    match error r, data r with
    | None, Some userData =>
        let currentUser := mapUser userData in
        set (only_currentUser (Some currentUser)) ;;
        (* 2. Fetch all existing users *)
        ru <- await SelectUsers ;;
        match data ru with
        | Some allUsers => set (only_users (map mapUser allUsers))
        | None => skip
        end ;;
        (* 3. Fetch existing messages for this user *)
        rm <- await (SelectMessages (User.id currentUser)) ;;
        match data rm with
        | Some existingMessages =>
            set (only_messages (map mapMessage existingMessages))
        | None => skip
        end ;;
        (* 4. Subscribe to realtime changes *)
        channel <- call (SubscribeChanges "rideconnect") ;;
        set (only_channel (Some channel)) ;;
        (* 5. Cleanup on page unload *)
        call (OnBeforeUnloadDeleteUser (User.id currentUser)) ;;
        Ret None (* success *)
    | err, _ =>
        console_error "Failed to create user:" ;;
        Ret (Some
               (* error?.message || "Failed to connect. Please try again." *)
               match err with
               | Some e =>
                   if String.eqb (message e) EmptyString
                   then "Failed to connect. Please try again."
                   else message e
               | None => "Failed to connect. Please try again."
               end)
    end.

Definition updateLocation (location : Location.t) : Prog unit :=
  s <- get ;;
  match currentUser s with
  | None => Ret tt
  | Some currentUser =>
      (* Optimistic local update *)
      set (only_currentUser
             (Some (User.mk
                      (User.id currentUser)
                      (User.name currentUser)
                      (User.role currentUser)
                      (Some (Location.lat location))
                      (Some (Location.lng location))
                      (User.is_online currentUser)
                      (User.is_premium currentUser)
                      (Some location)
                      (User.isOnline currentUser)
                      (User.isPremium currentUser)))) ;;
      (* Update in Supabase *)
      await (UpdateUser (User.id currentUser)
               (UpdateLocation (Location.lat location) (Location.lng location))) ;;
      Ret tt
  end.

Definition toggleOnline (isOnline : bool) : Prog unit :=
  s <- get ;;
  match currentUser s with
  | None => Ret tt
  | Some currentUser =>
      set (only_currentUser
             (Some (User.mk
                      (User.id currentUser)
                      (User.name currentUser)
                      (User.role currentUser)
                      (User.lat currentUser)
                      (User.lng currentUser)
                      isOnline
                      (User.is_premium currentUser)
                      (User.location currentUser)
                      isOnline
                      (User.isPremium currentUser)))) ;;
      await (UpdateUser (User.id currentUser) (UpdateOnline isOnline)) ;;
      Ret tt
  end.

Definition togglePremium (isPremium : bool) : Prog unit :=
  s <- get ;;
  match currentUser s with
  | None => Ret tt
  | Some currentUser =>
      set (only_currentUser
             (Some (User.mk
                      (User.id currentUser)
                      (User.name currentUser)
                      (User.role currentUser)
                      (User.lat currentUser)
                      (User.lng currentUser)
                      (User.is_online currentUser)
                      isPremium
                      (User.location currentUser)
                      (User.isOnline currentUser)
                      isPremium))) ;;
      await (UpdateUser (User.id currentUser) (UpdatePremium isPremium)) ;;
      Ret tt
  end.

Definition sendMessage (to text : string) : Prog unit :=
  s <- get ;;
  match currentUser s with
  | None => Ret tt
  | Some currentUser =>
      r <- await (InsertMessage (User.id currentUser) to text) ;;
      match error r with
      | Some _ =>
          console_error "Failed to send message:" ;;
          Ret tt
      | None =>
          (* Add locally immediately (realtime will also fire, but we
             deduplicate) *)
          match data r with
          | Some d =>
              let msg := mapMessage d in
              s' <- get ;;
              match find (fun m => String.eqb (Message.id m) (Message.id msg))
                         (messages s') with
              | None => set (only_messages (messages s' ++ [msg]))
              | Some _ => skip
              end
          | None => Ret tt
          end
      end
  end.

Definition cleanup : Prog unit :=
  s <- get ;;
  match channel s with
  | Some ch => call (RemoveChannel ch)
  | None => skip
  end ;;
  match currentUser s with
  | Some cu => call (DeleteUser (User.id cu))
  | None => skip
  end ;;
  set (mkPartial (Some None) (Some []) (Some []) (Some None)).

(** A notification of the change feed, and the callback it invokes. *)
Inductive Notification : Type :=
| UsersChanged (payload : UsersChange)
| MessageInserted (new : MessageRow.t).

Definition handler (n : Notification) : Prog unit :=
  match n with
  | UsersChanged payload => onUsersChange payload
  | MessageInserted new => onMessageInsert new
  end.

(** The store after one notification, and after a sequence of them in
    arrival order. *)
Definition deliver (b : Backend) (s : AppState) (n : Notification) : AppState :=
  state (run b (handler n) s).

Definition deliver_all (b : Backend) (ns : list Notification) (s : AppState)
  : AppState :=
  fold_left (deliver b) ns s.

End Store.

(* ================================================================== *)
(** * Route summaries ([MapView]) *)
(* ================================================================== *)

(** ** String helpers of the runtime *)

(** [toUpperCase] on the ASCII letters (the maneuver types of the
    directions provider are ASCII words). *)
Definition toUpperCase_ascii (c : ascii) : ascii :=
  let n := nat_of_ascii c in
  if ((97 <=? n) && (n <=? 122))%nat then ascii_of_nat (n - 32) else c.

Fixpoint String_map (f : ascii -> ascii) (s : string) : string :=
  match s with
  | EmptyString => EmptyString
  | String c rest => String (f c) (String_map f rest)
  end.

Definition toUpperCase (s : string) : string := String_map toUpperCase_ascii s.

(** [s.charAt(0)] *)
Definition charAt0 (s : string) : string :=
  match s with
  | EmptyString => EmptyString
  | String c _ => String c EmptyString
  end.

(** [s.slice(1)] *)
Definition slice1 (s : string) : string :=
  match s with
  | EmptyString => EmptyString
  | String _ rest => rest
  end.

(** [s.replace(/-/g, " ")] *)
Definition replace_hyphens (s : string) : string :=
  String_map (fun c => if Ascii.eqb c "-" then " "%char else c) s.

Definition capitalize (s : string) : string :=
  toUpperCase (charAt0 s) ++ replace_hyphens (slice1 s).

(** ** The directions provider's answer *)

Module Maneuver.
Record t : Type := mk { type : string; modifier : option string }.
End Maneuver.

Module OsrmStep.
Record t : Type := mk {
  maneuver : option Maneuver.t;
  name : option string;
  distance : number;
  duration : number
}.
End OsrmStep.

Module OsrmLeg.
Record t : Type := mk { steps : list OsrmStep.t }.
End OsrmLeg.

Module OsrmRoute.
Record t : Type := mk {
  geometry : option (list (number * number));  (* geometry.coordinates *)
  legs : list OsrmLeg.t;
  distance : number;
  duration : number
}.
End OsrmRoute.

Module OsrmData.
Record t : Type := mk { code : string; routes : option (list OsrmRoute.t) }.
End OsrmData.

(** What [response.json()] settles to. *)
Inductive JsonResult : Type :=
| JsonRejected (reason : string)
| Json (data : OsrmData.t).

(** What [fetch(url)] settles to: a rejection (provider unreachable) or a
    response with its [ok] flag and body. *)
Inductive FetchResult : Type :=
| FetchRejected (reason : string)
| FetchResponse (ok : bool) (body : JsonResult).

Record RouteStep : Type := mkRouteStep {
  instruction : string;
  step_distance : number; (* meters *)
  step_duration : number  (* seconds *)
}.

Record RouteData : Type := mkRouteData {
  coordinates : list (number * number);
  totalDistance : number; (* km *)
  totalDuration : number; (* minutes *)
  steps : list RouteStep
}.

(** ** Exceptions *)

Inductive Completion (A : Type) : Type :=
| Normal (a : A)
| Thrown (err : string).

Arguments Normal {A} a.
Arguments Thrown {A} err.

Definition cbind {A B} (c : Completion A) (k : A -> Completion B) : Completion B :=
  match c with
  | Normal a => k a
  | Thrown err => Thrown err
  end.

Fixpoint cmap {A B} (f : A -> Completion B) (l : list A) : Completion (list B) :=
  match l with
  | [] => Normal []
  | x :: rest =>
      cbind (f x) (fun y => cbind (cmap f rest) (fun ys => Normal (y :: ys)))
  end.

Section Routes.

Variable toString_other : number -> string.

Local Open Scope float_scope.

Local Abbreviation toString := (JSNumber.toString toString_other).

(** The instruction derived from a step's maneuver and road name. *)
Definition stepInstruction (m : Maneuver.t) (name : option string) : string :=
  if String.eqb (Maneuver.type m) "depart" then "Start"
  else if String.eqb (Maneuver.type m) "arrive" then "Arrive at destination"
  else
    (capitalize (Maneuver.type m)
      ++ match Maneuver.modifier m with
         | Some md => if String.eqb md EmptyString then EmptyString else " " ++ md
         | None => EmptyString
         end
      ++ " — "
      ++ match name with
         | Some nm => if String.eqb nm EmptyString then "unnamed road" else nm
         | None => "unnamed road"
         end)%string.

Definition mapStep (step : OsrmStep.t) : Completion RouteStep :=
  match OsrmStep.maneuver step with
  | None => Thrown "TypeError: Cannot read properties of undefined (reading 'type')"
  | Some m =>
      Normal (mkRouteStep
                (stepInstruction m (OsrmStep.name step))
                (OsrmStep.distance step)
                (OsrmStep.duration step))
  end.

Definition routeUrl (from to : number * number) : string :=
  ("https://router.project-osrm.org/route/v1/driving/"
    ++ toString (snd from) ++ "," ++ toString (fst from) ++ ";"
    ++ toString (snd to) ++ "," ++ toString (fst to)
    ++ "?overview=full&geometries=geojson&steps=true")%string.

(** The body of the [try] block of [fetchRoute]. *)
Definition fetchRoute_try
    (fetch : string -> FetchResult) (from to : number * number)
  : Completion RouteData :=
  let url := routeUrl from to in
  match fetch url with
  | FetchRejected reason => Thrown reason
  | FetchResponse ok body =>
      if negb ok then Thrown "OSRM request failed"
      else
        match body with
        | JsonRejected reason => Thrown reason
        | Json data =>
            if negb (String.eqb (OsrmData.code data) "Ok")
               || match OsrmData.routes data with
                  | Some (_ :: _) => false
                  | _ => true
                  end
            then Thrown "No route found"
            else
              match OsrmData.routes data with
              | Some (route :: _) =>
                  match OsrmRoute.geometry route with
                  | None =>
                      Thrown "TypeError: Cannot read properties of undefined (reading 'coordinates')"
                  | Some cs =>
                      (* GeoJSON is [lng, lat], Leaflet needs [lat, lng] *)
                      let coordinates := map (fun c => (snd c, fst c)) cs in
                      match OsrmRoute.legs route with
                      | [] =>
                          Thrown "TypeError: Cannot read properties of undefined (reading 'steps')"
                      | leg :: _ =>
                          cbind (cmap mapStep (OsrmLeg.steps leg)) (fun steps =>
                          Normal (mkRouteData
                                    coordinates
                                    (OsrmRoute.distance route / 1000) (* meters to km *)
                                    (OsrmRoute.duration route / 60) (* seconds to minutes *)
                                    steps))
                      end
                  end
              | _ => Thrown "TypeError: Cannot read properties of undefined"
              end
        end
  end.

(** Fetch route from OSRM: the settled promise together with the console
    output.  [Normal None] is the [null] of the [catch] block. *)
Definition fetchRoute
    (fetch : string -> FetchResult) (from to : number * number)
  : Completion (option RouteData) * list string :=
  match fetchRoute_try fetch from to with
  | Normal r => (Normal (Some r), [])
  | Thrown err => (Normal None, ["Route fetch error: " ++ err]%string)
  end.

Definition formatDuration (minutes : number) : string :=
  if minutes <? 1 then "< 1 min"
  else if minutes <? 60 then (toString (Math_round minutes) ++ " min")%string
  else
    let hours := Math_floor (minutes / 60) in
    let mins := Math_round (remainder minutes 60) in
    (toString hours ++ "h " ++ toString mins ++ "m")%string.

Definition formatDistance (meters : number) : string :=
  if meters <? 1000 then (toString (Math_round meters) ++ " m")%string
  else (toFixed toString_other 1 (meters / 1000) ++ " km")%string.

End Routes.

(* ================================================================== *)
(** * Notions used by the statements *)
(* ================================================================== *)

(** ** Visibility *)

Section VisibilityNotions.

Variables Math_sin Math_cos : number -> number.
Variable Math_atan2 : number -> number -> number.

Local Open Scope float_scope.

(** The radius of a viewer in kilometres: 5 if premium, 1 otherwise. *)
Definition radius (viewer : User.t) : number :=
  match User.isPremium viewer with
  | true => 5
  | false => 1
  end.

(** The five conditions under which [u] is shown to [viewer], who is at
    [position]. *)
Definition visible_to (viewer : User.t) (position : Location.t) (u : User.t)
  : Prop :=
  User.id u <> User.id viewer /\
  User.isOnline u = true /\
  User.role u <> User.role viewer /\
  exists loc,
    User.location u = Some loc /\
    (getDistance Math_sin Math_cos Math_atan2 position loc <=? radius viewer)
    = true.

End VisibilityNotions.

(** ** Rosters and logs *)

Definition user_ids (l : list User.t) : list string := map User.id l.

(** Number of entries of the log with the given id. *)
Definition entries_with_id (i : string) (l : list Message.t) : nat :=
  List.length (filter (fun m => String.eqb (Message.id m) i) l).

(** The log iterates in strictly ascending order of creation timestamp. *)
Definition ascending (l : list Message.t) : Prop :=
  StronglySorted
    (fun m1 m2 => (Message.timestamp m1 <? Message.timestamp m2)%float = true) l.

(** The creation timestamps of the rows are pairwise distinct. *)
Definition distinct_timestamps (rows : list MessageRow.t) : Prop :=
  ForallOrdPairs
    (fun r1 r2 =>
       (JSDate.getTime (MessageRow.created_at r1)
          =? JSDate.getTime (MessageRow.created_at r2))%float = false)
    rows.

(** [l1] is [l2] with some elements left out, the order being kept. *)
Inductive subseq {A : Type} : list A -> list A -> Prop :=
| subseq_nil : subseq [] []
| subseq_skip x l1 l2 : subseq l1 l2 -> subseq l1 (x :: l2)
| subseq_keep x l1 l2 : subseq l1 l2 -> subseq (x :: l1) (x :: l2).


(** ** What a caller of an operation receives *)

(** The value a promise of the store settles to, as its caller sees it. *)
Inductive Settled : Type :=
| Undefined
| Null
| Str (s : string).

(** [connect] resolves to [string | null]. *)
Definition settled_connect (r : option string) : Settled :=
  match r with
  | Some m => Str m
  | None => Null
  end.

(** Operations of type [void] resolve to [undefined]. *)
Definition settled_void (_ : unit) : Settled := Undefined.

(** The backend refused to create the row. *)
Definition rejected {T : Type} (r : Response T) : Prop :=
  error r <> None \/ data r = None.

(** ** Outcomes of operations *)

(** The message [connect] returns for a failed creation. *)
Definition connect_failure_message (err : option PostgrestError) : string :=
  match err with
  | Some e =>
      if String.eqb (message e) EmptyString then "Failed to connect. Please try again."
      else message e
  | None => "Failed to connect. Please try again."
  end.

(** The provider is unreachable, answers with a non-success status, or
    answers with no route. *)
Definition provider_failed (r : FetchResult) : Prop :=
  match r with
  | FetchRejected _ => True
  | FetchResponse ok body =>
      ok = false \/
      exists d, body = Json d /\
                (OsrmData.routes d = None \/ OsrmData.routes d = Some [])
  end.

(** ** Instruction strings *)

(** The maneuver type with its first letter in upper case and the hyphens
    after the first character replaced by spaces. *)
Definition capitalized (s : string) : string :=
  match s with
  | EmptyString => EmptyString
  | String c rest =>
      String (toUpperCase_ascii c)
             (String_map (fun x => if Ascii.eqb x "-" then " "%char else x) rest)
  end.


(** ** Classes of numbers *)

(** [Number.isFinite] *)
Definition Number_isFinite (x : number) : bool :=
  match Prim2SF x with
  | S754_zero _ | S754_finite _ _ _ => true
  | _ => false
  end.

(** [Number.isNaN] *)
Definition Number_isNaN (x : number) : bool :=
  match Prim2SF x with
  | S754_nan => true
  | _ => false
  end.

(** The integer nearest to the exact value of [x], the larger one on a
    tie. *)
Definition nearest_integer (x : number) : Z :=
  match Prim2SF x with
  | S754_finite s m e => roundZ s m e
  | _ => 0%Z
  end.



(** ** Sample data *)

Module Sample.

Local Open Scope float_scope.

Definition small_angle_sin (x : number) : number := x.
Definition small_angle_cos (_ : number) : number := 1.
Definition small_angle_atan2 (y x : number) : number := y / x.

Definition sf : Location.t := Location.mk 37.7749 (-122.4194).
Definition uptown : Location.t := Location.mk 37.7949 (-122.4394).

Definition alice_row : UserRow.t :=
  UserRow.mk "u1" "Alice" driver (Some 37.7749) (Some (-122.4194)) true false.
Definition bob_row : UserRow.t :=
  UserRow.mk "u2" "Bob" passenger (Some 37.7759) (Some (-122.4184)) true false.

Definition alice : User.t := mapUser alice_row.
Definition bob : User.t := mapUser bob_row.






Definition empty : AppState := mkState None [] [] None.

(** Alice is connected and knows the roster [alice; bob]. *)
Definition session : AppState :=
  mkState (Some alice) [alice; bob] [] (Some (Channel "rideconnect")).

Definition early_row : MessageRow.t :=
  MessageRow.mk "m1" "u2" "u1" "on my way" "2024-01-01T00:00:01Z".
Definition late_row : MessageRow.t :=
  MessageRow.mk "m2" "u2" "u1" "arrived" "2024-01-01T00:00:02Z".

Definition denied : PostgrestError := mkError "permission denied".

(** A backend that accepts everything. *)
Definition accepting : Backend :=
  fun R req =>
    match req in Request R return R with
    | InsertUser name role =>
        mkResponse (Some (UserRow.mk "u1" name role None None false false)) None
    | SelectUsers => mkResponse (Some [alice_row; bob_row]) None
    | SelectMessages _ => mkResponse (Some []) None
    | SubscribeChanges topic => Channel topic
    | UpdateUser _ _ => tt
    | DeleteUser _ => tt
    | InsertMessage f t x =>
        mkResponse (Some (MessageRow.mk "m9" f t x "2024-01-01T00:00:09Z")) None
    | RemoveChannel _ => tt
    | OnBeforeUnloadDeleteUser _ => tt
    end.

(** A backend that creates nothing and reports no error either. *)
Definition silent : Backend :=
  fun R req =>
    match req in Request R return R with
    | InsertUser _ _ => mkResponse None None
    | SelectUsers => mkResponse (Some []) None
    | SelectMessages _ => mkResponse (Some []) None
    | SubscribeChanges topic => Channel topic
    | UpdateUser _ _ => tt
    | DeleteUser _ => tt
    | InsertMessage _ _ _ => mkResponse None None
    | RemoveChannel _ => tt
    | OnBeforeUnloadDeleteUser _ => tt
    end.

(** A backend that refuses every creation. *)
Definition rejecting : Backend :=
  fun R req =>
    match req in Request R return R with
    | InsertUser _ _ => mkResponse None (Some denied)
    | SelectUsers => mkResponse (Some []) None
    | SelectMessages _ => mkResponse (Some []) None
    | SubscribeChanges topic => Channel topic
    | UpdateUser _ _ => tt
    | DeleteUser _ => tt
    | InsertMessage _ _ _ => mkResponse None (Some denied)
    | RemoveChannel _ => tt
    | OnBeforeUnloadDeleteUser _ => tt
    end.

End Sample.

(* ================================================================== *)
(** * Conversations ([Chat] and [Inbox]) *)
(* ================================================================== *)

(** Messages between current user and selected user; [None] is the early
    [return null] of a component rendered without a session. *)
Definition Chat_chatMessages
    (currentUser : option User.t) (messages : list Message.t) (selectedUser : User.t)
  : option (list Message.t) :=
  match currentUser with
  | None => None
  | Some cu =>
      Some (filter
              (fun m =>
                 (String.eqb (Message.from m) (User.id cu)
                  && String.eqb (Message.to m) (User.id selectedUser))
                 || (String.eqb (Message.from m) (User.id selectedUser)
                     && String.eqb (Message.to m) (User.id cu)))
              messages)
  end.

(** [Set.prototype.add] on a set of strings kept in insertion order. *)
Definition Set_add (x : string) (s : list string) : list string :=
  if existsb (String.eqb x) s then s else s ++ [x].

(** Find all unique users we have chatted with. *)
Definition Inbox_chattedUserIds (cu : User.t) (messages : list Message.t)
  : list string :=
  fold_left
    (fun chattedUserIds m =>
       let chattedUserIds :=
         if String.eqb (Message.from m) (User.id cu)
         then Set_add (Message.to m) chattedUserIds else chattedUserIds in
       if String.eqb (Message.to m) (User.id cu)
       then Set_add (Message.from m) chattedUserIds else chattedUserIds)
    messages [].

(** [Array.from(chattedUserIds).map(id => users.find(...)).filter(Boolean)] *)
Definition Inbox_chattedUsers
    (currentUser : option User.t) (messages : list Message.t) (users : list User.t)
  : option (list User.t) :=
  match currentUser with
  | None => None
  | Some cu =>
      Some (flat_map
              (fun id =>
                 match find (fun u => String.eqb (User.id u) id) users with
                 | Some u => [u]
                 | None => []
                 end)
              (Inbox_chattedUserIds cu messages))
  end.

(** [Array.prototype.pop] as used on a fresh array: its last element. *)
Definition Array_pop {A : Type} (l : list A) : option A :=
  match rev l with
  | [] => None
  | x :: _ => Some x
  end.

(** Get the last message in the conversation. *)
Definition Inbox_lastMessage
    (cu : User.t) (messages : list Message.t) (u : User.t) : option Message.t :=
  Array_pop
    (filter
       (fun m =>
          (String.eqb (Message.from m) (User.id u)
           && String.eqb (Message.to m) (User.id cu))
          || (String.eqb (Message.from m) (User.id cu)
              && String.eqb (Message.to m) (User.id u)))
       messages).

(* ================================================================== *)
(** * Navigation state ([MapView]) *)
(* ================================================================== *)

(** The navigation state of the map component (its five [useState]
    cells). *)
Record NavState : Type := mkNav {
  routeTo : option (number * number);
  routeData : option RouteData;
  routeLoading : bool;
  routeError : option string;
  showSteps : bool
}.

Definition nav_initial : NavState := mkNav None None false None false.

(** [startNavigation] up to its [await]. *)
Definition startNavigation_begin (to : number * number) (st : NavState) : NavState :=
  mkNav (Some to) None true None false.

(** [startNavigation] from the moment [fetchRoute] has settled.  A
    rejection would leave the function at the [await]. *)
Definition startNavigation_resume
    (settled : Completion (option RouteData)) (st : NavState) : NavState :=
  match settled with
  | Thrown _ => st
  | Normal data =>
      let st :=
        match data with
        | Some d =>
            mkNav (routeTo st) (Some d) (routeLoading st) (routeError st) (showSteps st)
        | None =>
            mkNav (routeTo st) (routeData st) (routeLoading st)
              (Some "Could not find a route. Please try again.") (showSteps st)
        end in
      mkNav (routeTo st) (routeData st) false (routeError st) (showSteps st)
  end.

Definition endNavigation (st : NavState) : NavState :=
  mkNav None None false None false.

(** [startNavigation] run without any other event in between. *)
Definition startNavigation
    (toString_other : number -> string) (fetch : string -> FetchResult)
    (from to : number * number) (st : NavState) : NavState :=
  startNavigation_resume
    (fst (fetchRoute toString_other fetch from to))
    (startNavigation_begin to st).

(* ================================================================== *)
(** * The socket server *)
(* ================================================================== *)

Module Server.

Record User : Type := mkUser {
  id : string;
  socketId : string;
  name : string;
  role : Role;
  location : option Location.t;
  isOnline : bool;
  isPremium : bool
}.

Record Message : Type := mkMessage {
  msg_id : string;
  from : string;
  to : string;
  text : string;
  timestamp : number
}.

(** [Omit<User, "socketId" | "id">]: what a client sends with [login]. *)
Record LoginData : Type := mkLogin {
  login_name : string;
  login_role : Role;
  login_location : option Location.t;
  login_isOnline : bool;
  login_isPremium : bool
}.

(** A [Map<string, User>]: the entries in insertion order, one per key. *)
Definition UserMap : Type := list (string * User).

Fixpoint Map_get (k : string) (m : UserMap) : option User :=
  match m with
  | [] => None
  | (k', v) :: rest => if String.eqb k' k then Some v else Map_get k rest
  end.

(** [Map.prototype.set]: an existing key keeps its place. *)
Fixpoint Map_set (k : string) (v : User) (m : UserMap) : UserMap :=
  match m with
  | [] => [(k, v)]
  | (k', v') :: rest =>
      if String.eqb k' k then (k', v) :: rest else (k', v') :: Map_set k v rest
  end.

Fixpoint Map_delete (k : string) (m : UserMap) : UserMap :=
  match m with
  | [] => []
  | (k', v') :: rest =>
      if String.eqb k' k then rest else (k', v') :: Map_delete k rest
  end.

(** [Array.from(users.values())] *)
Definition Map_values (m : UserMap) : list User := map snd m.

Definition Map_keys (m : UserMap) : list string := map fst m.

Record State : Type := mkState {
  users : UserMap;
  messages : list Message
}.

(** What the server sends. *)
Inductive Payload : Type :=
| login_success (user : User)
| users_update (all : list User)
| receive_message (message : Message).

(** [socket.emit] and [io.to(socketId).emit] address one socket, [io.emit]
    all of them. *)
Inductive Emit : Type :=
| ToSocket (socketId : string) (p : Payload)
| ToAll (p : Payload).

(** What a client sends. *)
Inductive ClientEvent : Type :=
| login (userData : LoginData)
| update_location (location : Location.t)
| toggle_online (isOnline : bool)
| toggle_premium (isPremium : bool)
| send_message (to text : string)
| disconnect.

(** What the handlers read from the environment: the id drawn with
    [Math.random] and the clock [Date.now()]. *)
Record Env : Type := mkEnv { random_id : string; now : number }.

(** The handler of an event received on the socket [socket_id]. *)
Definition handle (env : Env) (socket_id : string) (ev : ClientEvent) (st : State)
  : State * list Emit :=
  match ev with
  | login userData =>
      let id := socket_id in (* Using socket id as user id for simplicity *)
      let user :=
        mkUser id socket_id (login_name userData) (login_role userData)
          (login_location userData) (login_isOnline userData)
          (login_isPremium userData) in
      let users' := Map_set id user (users st) in
      (mkState users' (messages st),
       [ToSocket socket_id (login_success user);
        ToAll (users_update (Map_values users'))])
  | update_location location =>
      match Map_get socket_id (users st) with
      | Some user =>
          let user :=
            mkUser (id user) (socketId user) (name user) (role user)
              (Some location) (isOnline user) (isPremium user) in
          let users' := Map_set socket_id user (users st) in
          (mkState users' (messages st), [ToAll (users_update (Map_values users'))])
      | None => (st, [])
      end
  | toggle_online isOnline =>
      match Map_get socket_id (users st) with
      | Some user =>
          let user :=
            mkUser (id user) (socketId user) (name user) (role user)
              (location user) isOnline (isPremium user) in
          let users' := Map_set socket_id user (users st) in
          (mkState users' (messages st), [ToAll (users_update (Map_values users'))])
      | None => (st, [])
      end
  | toggle_premium isPremium =>
      match Map_get socket_id (users st) with
      | Some user =>
          let user :=
            mkUser (id user) (socketId user) (name user) (role user)
              (location user) (isOnline user) isPremium in
          let users' := Map_set socket_id user (users st) in
          (mkState users' (messages st), [ToAll (users_update (Map_values users'))])
      | None => (st, [])
      end
  | send_message to text =>
      match Map_get socket_id (users st) with
      | Some fromUser =>
          let message := mkMessage (random_id env) (id fromUser) to text (now env) in
          (mkState (users st) (messages st ++ [message]),
           (* Send to recipient *)
           match Map_get to (users st) with
           | Some toUser => [ToSocket (socketId toUser) (receive_message message)]
           | None => []
           end
           (* Send back to sender *)
           ++ [ToSocket socket_id (receive_message message)])
      | None => (st, [])
      end
  | disconnect =>
      let users' := Map_delete socket_id (users st) in
      (mkState users' (messages st), [ToAll (users_update (Map_values users'))])
  end.

(** Some mock data for demonstration. *)
Definition mockUsers : list User :=
  [ mkUser "mock1" "mock1" "Alice (Driver)" driver
      (Some (Location.mk 37.7749 (-122.4194))) true false;
    mkUser "mock2" "mock2" "Bob (Passenger)" passenger
      (Some (Location.mk 37.7759 (-122.4184))) true false;
    mkUser "mock3" "mock3" "Charlie (Driver)" driver
      (Some (Location.mk 37.7949 (-122.4394))) true true;
    mkUser "mock4" "mock4" "Diana (Passenger)" passenger
      (Some (Location.mk 37.7649 (-122.4294))) true false;
    mkUser "mock5" "mock5" "Eve (Driver)" driver
      (Some (Location.mk 37.7749 (-122.4194))) false false ]%float.

(** The state at start-up: [mockUsers.forEach(u => users.set(u.id, u))]. *)
Definition initial : State :=
  mkState (fold_left (fun m u => Map_set (id u) u m) mockUsers []) [].

(** A run of the server over a sequence of received events. *)
Fixpoint handle_all (evs : list (Env * string * ClientEvent)) (st : State)
  : State * list Emit :=
  match evs with
  | [] => (st, [])
  | (env, sid, ev) :: rest =>
      let '(st1, out1) := handle env sid ev st in
      let '(st2, out2) := handle_all rest st1 in
      (st2, out1 ++ out2)
  end.

End Server.

(* ================================================================== *)
(** * Further notions used by the statements *)
(* ================================================================== *)

(** The compatibility fields of a user repeat its columns. *)
Definition coherent (u : User.t) : Prop :=
  User.isOnline u = User.is_online u /\
  User.isPremium u = User.is_premium u /\
  User.location u =
  match User.lat u, User.lng u with
  | Some la, Some ln => Some (Location.mk la ln)
  | _, _ => None
  end.

Definition coherent_state (s : AppState) : Prop :=
  Forall coherent (users s) /\
  match currentUser s with
  | Some u => coherent u
  | None => True
  end.

(** The message is exchanged between the two ids, in either direction. *)
Definition between_ids (a b : string) (m : Message.t) : Prop :=
  (Message.from m = a /\ Message.to m = b) \/
  (Message.from m = b /\ Message.to m = a).

(** The swap of the two axes of a coordinate. *)
Definition swap_axes (c : number * number) : number * number := (snd c, fst c).

(** In a server map every key is the id and the socket id of its user. *)
Definition well_keyed (m : Server.UserMap) : Prop :=
  NoDup (Server.Map_keys m) /\
  Forall (fun kv => Server.id (snd kv) = fst kv /\ Server.socketId (snd kv) = fst kv) m.

(** The roster broadcasts among what the server sent. *)
Definition roster_broadcasts (out : list Server.Emit) : list (list Server.User) :=
  flat_map
    (fun e =>
       match e with
       | Server.ToAll (Server.users_update all) => [all]
       | _ => []
       end)
    out.

(** The sockets to which a message was sent, in order. *)
Definition message_recipients (out : list Server.Emit) : list string :=
  flat_map
    (fun e =>
       match e with
       | Server.ToSocket sid (Server.receive_message _) => [sid]
       | _ => []
       end)
    out.

(* ================================================================== *)
(** * IEEE 754 facts *)
(* ================================================================== *)

Section IEEE.

Local Open Scope float_scope.

(** ** Signs *)





Lemma SFmul_comm (x y : spec_float) : SFmul prec emax x y = SFmul prec emax y x.
Proof.
  destruct x as [sx | sx | | sx mx ex], y as [sy | sy | | sy my ey]; simpl;
    rewrite ?(xorb_comm sx sy); try reflexivity.
  rewrite (Pos.mul_comm mx my), (Z.add_comm ex ey). reflexivity.
Qed.



Lemma mul_comm (x y : float) : x * y = y * x.
Proof. apply Prim2SF_inj. rewrite !mul_spec. apply SFmul_comm. Qed.








(** ** Absence of overflow for small operands *)

Lemma digits2_pos_size (p : positive) : digits2_pos p = Pos.size p.
Proof. induction p; simpl; congruence. Qed.

Lemma Zdigits2_log2 (n : Z) : (0 < n)%Z -> Zdigits2 n = (Z.log2 n + 1)%Z.
Proof.
  destruct n as [ | p | p]; try lia. intros _. simpl.
  rewrite digits2_pos_size. destruct p; simpl; lia.
Qed.











Lemma valid_digits (s : bool) (m : positive) (e : Z) :
  valid_binary (S754_finite s m e) = true ->
  (Zdigits2 (Z.pos m) <= 53)%Z.
Proof.
  simpl. unfold bounded, canonical_mantissa.
  intros H. apply andb_prop in H. destruct H as [H _].
  apply Z.eqb_eq in H. unfold fexp, prec in H. simpl. lia.
Qed.



(** ** Consequences for the primitive operations *)


(** The difference of a finite number and itself is [+0]. *)
Lemma sub_diag (x : float) : Number_isFinite x = true -> x - x = 0.
Proof.
  unfold Number_isFinite. intros H. apply Prim2SF_inj. rewrite sub_spec.
  change (Prim2SF 0) with (S754_zero false).
  destruct (Prim2SF x) as [s | s | | s m e]; try discriminate; simpl.
  - destruct s; reflexivity.
  - rewrite Z.sub_diag. reflexivity.
Qed.




(** ** Order *)

Lemma SFcompare_antisym (x y : spec_float) :
  SFcompare y x = option_map CompOpp (SFcompare x y).
Proof.
  destruct x as [sx | sx | | sx mx ex], y as [sy | sy | | sy my ey];
    try destruct sx; try destruct sy; try reflexivity; simpl;
    change (Pos.compare_cont Eq my mx) with (Pos.compare my mx);
    change (Pos.compare_cont Eq mx my) with (Pos.compare mx my);
    rewrite (Z.compare_antisym ex ey), (Pos.compare_antisym mx my);
    destruct (ex ?= ey)%Z; simpl; rewrite ?CompOpp_involutive; reflexivity.
Qed.

Lemma leb_not_nan (a x : float) : (a <=? x) = true -> Number_isNaN x = false.
Proof.
  rewrite leb_spec. unfold Number_isNaN, SFleb, SFcompare.
  destruct (Prim2SF a), (Prim2SF x); try reflexivity; discriminate.
Qed.

Lemma SFcompare_numbers (x y : spec_float) :
  x <> S754_nan -> y <> S754_nan -> exists c, SFcompare x y = Some c.
Proof.
  destruct x, y; intros Hx Hy; try congruence; simpl; eauto.
Qed.

(** On numbers, [x < y] fails exactly when [y <= x] holds. *)
Lemma ltb_false_leb (x y : float) :
  Number_isNaN x = false -> Number_isNaN y = false ->
  (x <? y) = false -> (y <=? x) = true.
Proof.
  unfold Number_isNaN. rewrite ltb_spec, leb_spec. unfold SFltb, SFleb.
  rewrite (SFcompare_antisym (Prim2SF x) (Prim2SF y)).
  intros Hx Hy.
  destruct (@SFcompare_numbers (Prim2SF x) (Prim2SF y)) as [c Hc].
  - destruct (Prim2SF x); congruence.
  - destruct (Prim2SF y); congruence.
  - rewrite Hc. destruct c; simpl; congruence.
Qed.

Lemma leb_ltb_false (x y : float) : (y <=? x) = true -> (x <? y) = false.
Proof.
  rewrite ltb_spec, leb_spec. unfold SFltb, SFleb.
  rewrite (SFcompare_antisym (Prim2SF x) (Prim2SF y)).
  destruct (SFcompare _ _) as [[ | | ] | ]; simpl; congruence.
Qed.

(** ** Rounding to whole numbers *)

(** [roundZ] is the nearest integer: the exact value [v / 2^k] lies in
    [[n - 1/2, n + 1/2)]. *)
Lemma roundZ_nearest (s : bool) (m : positive) (e : Z) :
  (e < 0)%Z ->
  let n := roundZ s m e in
  let v := cond_Zopp s (Z.pos m) in
  ((2 * n - 1) * 2 ^ (- e) <= 2 * v < (2 * n + 1) * 2 ^ (- e))%Z.
Proof.
  intros He n v. unfold n, roundZ. fold v.
  destruct (Z.leb_spec 0 e) as [H | _]; [lia | ].
  set (k := (- e)%Z). assert (Hk : (0 < 2 ^ k)%Z) by (apply Z.pow_pos_nonneg; lia).
  replace (2 ^ (k + 1))%Z with (2 * 2 ^ k)%Z by (rewrite Z.pow_add_r by lia; lia).
  assert (H1 := Z.mul_div_le (2 * v + 2 ^ k) (2 * 2 ^ k)).
  assert (H2 := Z.mul_succ_div_gt (2 * v + 2 ^ k) (2 * 2 ^ k)).
  unfold Z.succ in H2. nia.
Qed.

Lemma valid_mantissa (s : bool) (m : positive) (e : Z) :
  valid_binary (S754_finite s m e) = true -> (Z.pos m < 2 ^ 53)%Z.
Proof.
  intros V. assert (H := @valid_digits s m e V).
  rewrite Zdigits2_log2 in H by lia.
  apply Z.log2_lt_pow2; lia.
Qed.

(** The exact reading of [0 <= x < b] for a normal positive [b]. *)
Lemma below_exact (b x : float) (mb : positive) (eb : Z) :
  Prim2SF b = S754_finite false mb eb -> (2 ^ 52 <= Z.pos mb)%Z ->
  (0 <=? x) = true -> (x <? b) = true ->
  match Prim2SF x with
  | S754_zero _ => True
  | S754_finite s m e =>
      s = false /\ (e <= eb)%Z /\ (Z.pos m < Z.pos mb * 2 ^ (eb - e))%Z
  | _ => False
  end.
Proof.
  intros Hb Hmb. rewrite leb_spec, ltb_spec, Hb.
  change (Prim2SF 0) with (S754_zero false).
  assert (V := Prim2SF_valid x).
  unfold SFleb, SFltb, SFcompare.
  destruct (Prim2SF x) as [s | s | | s m e]; try destruct s; try discriminate; auto.
  intros _ H. split; [reflexivity | ].
  assert (Hm := @valid_mantissa false m e V).
  destruct (Z.compare_spec e eb) as [E | E | E]; try discriminate.
  - subst e. rewrite Z.sub_diag. simpl.
    change (Pos.compare_cont Eq m mb) with (Pos.compare m mb) in H.
    destruct (Pos.compare_spec m mb); try discriminate. lia.
  - split; [lia | ].
    assert (2 ^ 1 <= 2 ^ (eb - e))%Z by (apply Z.pow_le_mono_r; lia).
    change (2 ^ 53)%Z with (2 ^ 52 * 2 ^ 1)%Z in Hm. nia.
Qed.

(** Below a whole bound [N], a non-negative number rounds to a whole
    number between [0] and [N], which is what [Math.round] returns. *)
Lemma round_below (N : Z) (b x : float) (mb : positive) (eb : Z) :
  Prim2SF b = S754_finite false mb eb -> (eb < 0)%Z ->
  (2 ^ 52 <= Z.pos mb)%Z -> Z.pos mb = (N * 2 ^ (- eb))%Z ->
  (0 <=? x) = true -> (x <? b) = true ->
  (0 <= nearest_integer x <= N)%Z /\
  (Math_round x = of_Z (nearest_integer x) \/
   nearest_integer x = 0%Z /\ (Math_round x = 0 \/ Math_round x = -0)).
Proof.
  intros Hb Heb Hmb HN H0 Hx.
  assert (H := @below_exact b x mb eb Hb Hmb H0 Hx).
  unfold nearest_integer, Math_round.
  assert (HN0 : (0 <= N)%Z).
  { assert (0 < 2 ^ (- eb))%Z by (apply Z.pow_pos_nonneg; lia). nia. }
  destruct (Prim2SF x) as [s | s | | s m e] eqn:Hsf; try contradiction.
  - split; [lia | ]. right. split; [reflexivity | ].
    destruct s; [right | left]; apply Prim2SF_inj; rewrite Hsf; reflexivity.
  - destruct H as (-> & He & Hm).
    destruct (Z.leb_spec 0 e) as [Hge | Hlt]; [lia | ].
    assert (Hr := @roundZ_nearest false m e Hlt). cbv zeta in Hr. simpl cond_Zopp in Hr.
    set (n := roundZ false m e) in *.
    assert (Hk : (0 < 2 ^ (- e))%Z) by (apply Z.pow_pos_nonneg; lia).
    assert (Hpow : (2 ^ (- e) = 2 ^ (- eb) * 2 ^ (eb - e))%Z).
    { rewrite <- Z.pow_add_r by lia. f_equal. lia. }
    assert (Hbound : (Z.pos m < N * 2 ^ (- e))%Z).
    { rewrite Hpow, Z.mul_assoc, <- HN. exact Hm. }
    split; [nia | ].
    destruct (Z.eqb_spec n 0) as [E | E]; [right | left; reflexivity].
    split; [exact E | left; reflexivity].
Qed.

End IEEE.

(* ================================================================== *)
(** * Properties of the distance helper *)
(* ================================================================== *)

Section GeoFacts.

Variables Math_sin Math_cos : number -> number.
Variable Math_atan2 : number -> number -> number.

Local Open Scope float_scope.

(** What the statements below assume of the engine's [Math] functions:
    the sine is odd and maps [+0] to [+0], the cosine of a finite number
    lies between [-1] and [1], and [atan2 (+0, 1)] is [+0]. *)
Hypothesis sin_odd : forall x, Math_sin (- x) = - Math_sin x.
Hypothesis sin_zero : Math_sin 0 = 0.
Hypothesis cos_range :
  forall x, Number_isFinite x = true ->
            (-1 <=? Math_cos x) = true /\ (Math_cos x <=? 1) = true.
Hypothesis atan2_zero : Math_atan2 0 1 = 0.

Local Abbreviation distance := (getDistance Math_sin Math_cos Math_atan2).









End GeoFacts.





(* ================================================================== *)
(** * Properties of the visibility filter *)
(* ================================================================== *)

Lemma Role_eqb_eq (r1 r2 : Role) : Role_eqb r1 r2 = true <-> r1 = r2.
Proof. destruct r1, r2; simpl; split; congruence. Qed.

Lemma Role_eqb_neq (r1 r2 : Role) : Role_eqb r1 r2 = false <-> r1 <> r2.
Proof. destruct r1, r2; simpl; split; congruence. Qed.

Section VisibilityFacts.

Variables Math_sin Math_cos : number -> number.
Variable Math_atan2 : number -> number -> number.

Local Abbreviation isVisible := (MapView_isVisible Math_sin Math_cos Math_atan2).
Local Abbreviation visible := (visible_to Math_sin Math_cos Math_atan2).

Lemma visibilityRadius_radius (viewer : User.t) :
  visibilityRadius viewer = radius viewer.
Proof. unfold visibilityRadius, radius. destruct (User.isPremium viewer); reflexivity. Qed.

(** The filter callback decides the five conditions. *)
Lemma MapView_isVisible_iff (viewer : User.t) (pos : Location.t) (u : User.t) :
  isVisible viewer (Location.lat pos, Location.lng pos) u = true
  <-> visible viewer pos u.
Proof.
  unfold MapView_isVisible, visible_to, utils_getDistance. simpl fst; simpl snd.
  rewrite visibilityRadius_radius.
  destruct pos as [plat plng]; simpl.
  destruct (String.eqb_spec (User.id u) (User.id viewer)) as [Hid | Hid].
  { split; [discriminate | intros [H _]; contradiction]. }
  destruct (User.isOnline u); simpl.
  2:{ split; [discriminate | intros (_ & H & _); discriminate]. }
  destruct (User.location u) as [[la ln] | ].
  2:{ split; [discriminate | intros (_ & _ & _ & loc & H & _); discriminate]. }
  simpl.
  destruct (Role_eqb (User.role u) (User.role viewer)) eqn:Hrole.
  { apply Role_eqb_eq in Hrole.
    split; [discriminate | intros (_ & _ & H & _); contradiction]. }
  apply Role_eqb_neq in Hrole.
  split.
  - intros Hd. repeat split; auto. exists (Location.mk la ln). split; auto.
  - intros (_ & _ & _ & loc & Hloc & Hd). injection Hloc as <-. exact Hd.
Qed.

(** The two components compute the same list. *)
Lemma UserList_visibleUsers_eq (cu : option User.t) (l : list User.t) :
  UserList_visibleUsers Math_sin Math_cos Math_atan2 cu l
  = MapView_visibleUsers Math_sin Math_cos Math_atan2 cu l.
Proof.
  unfold UserList_visibleUsers, MapView_visibleUsers.
  destruct cu as [cu | ]; [ | reflexivity].
  destruct (User.location cu) as [pos | ]; reflexivity.
Qed.

Lemma filter_subseq {A : Type} (f : A -> bool) (l : list A) :
  subseq (filter f l) l.
Proof.
  induction l as [ | x l IH]; simpl.
  - constructor.
  - destruct (f x); constructor; exact IH.
Qed.

(** C1. For a viewer that has a position and any roster, the visibility
    filter (in the map and in the list component alike) returns exactly
    the roster entities whose id differs from the viewer's, that are
    online, have a position, have the other role, and lie within the
    viewer's radius by haversine distance, the radius being 5 km for a
    premium viewer and 1 km otherwise; the roster order is kept. *)
Theorem visibleUsers_exact
    (viewer : User.t) (pos : Location.t) (roster : list User.t)
    (Hpos : User.location viewer = Some pos) :
  exists vis,
    MapView_visibleUsers Math_sin Math_cos Math_atan2 (Some viewer) roster = Some vis /\
    UserList_visibleUsers Math_sin Math_cos Math_atan2 (Some viewer) roster = Some vis /\
    subseq vis roster /\
    (forall u, In u vis <-> In u roster /\ visible viewer pos u) /\
    radius viewer = (if User.isPremium viewer then 5 else 1)%float.
Proof.
  exists (filter (isVisible viewer (Location.lat pos, Location.lng pos)) roster).
  split; [ | split; [ | split; [ | split]]].
  - unfold MapView_visibleUsers. rewrite Hpos. reflexivity.
  - rewrite UserList_visibleUsers_eq. unfold MapView_visibleUsers.
    rewrite Hpos. reflexivity.
  - apply filter_subseq.
  - intros u. rewrite filter_In, MapView_isVisible_iff. reflexivity.
  - reflexivity.
Qed.

(** Without a session or without a position nothing is listed: both
    components show the waiting screen. *)
Lemma visibleUsers_no_position (cu : option User.t) (roster : list User.t) :
  match cu with
  | Some v => User.location v = None
  | None => True
  end ->
  MapView_visibleUsers Math_sin Math_cos Math_atan2 cu roster = None.
Proof.
  destruct cu as [v | ]; simpl; [intros -> | ]; reflexivity.
Qed.

End VisibilityFacts.

Lemma visibleUsers_exact_witness :
  User.location Sample.alice = Some Sample.sf /\
  exists vis,
    MapView_visibleUsers Sample.small_angle_sin Sample.small_angle_cos
      Sample.small_angle_atan2 (Some Sample.alice) [Sample.alice; Sample.bob]
    = Some vis /\
    UserList_visibleUsers Sample.small_angle_sin Sample.small_angle_cos
      Sample.small_angle_atan2 (Some Sample.alice) [Sample.alice; Sample.bob]
    = Some vis /\
    subseq vis [Sample.alice; Sample.bob] /\
    (forall u, In u vis <->
               In u [Sample.alice; Sample.bob] /\
               visible_to Sample.small_angle_sin Sample.small_angle_cos
                 Sample.small_angle_atan2 Sample.alice Sample.sf u) /\
    radius Sample.alice = (if User.isPremium Sample.alice then 5 else 1)%float.
Proof.
  split; [reflexivity | ].
  apply (visibleUsers_exact Sample.small_angle_sin Sample.small_angle_cos
           Sample.small_angle_atan2 Sample.alice [Sample.alice; Sample.bob]).
  reflexivity.
Defined.

(* ================================================================== *)
(** * Properties of the store *)
(* ================================================================== *)

(** ** The callbacks as state transformers *)

Lemma deliver_message (b : Backend) (s : AppState) (row : MessageRow.t) :
  deliver b s (MessageInserted row) =
  match currentUser s with
  | Some cu =>
      if String.eqb (MessageRow.from_user row) (User.id cu)
         || String.eqb (MessageRow.to_user row) (User.id cu)
      then
        match find (fun m => String.eqb (Message.id m) (MessageRow.id row))
                   (messages s) with
        | None => merge s (only_messages (messages s ++ [mapMessage row]))
        | Some _ => s
        end
      else s
  | None => s
  end.
Proof.
  unfold deliver, handler, onMessageInsert. simpl.
  destruct (currentUser s) as [cu | ]; [ | reflexivity].
  destruct (String.eqb (MessageRow.from_user row) (User.id cu)
            || String.eqb (MessageRow.to_user row) (User.id cu)); [ | reflexivity].
  destruct (find _ (messages s)); reflexivity.
Qed.

Lemma deliver_users (b : Backend) (s : AppState) (payload : UsersChange) :
  deliver b s (UsersChanged payload) =
  match payload with
  | INSERT new => merge s (only_users (users s ++ [mapUser new]))
  | UPDATE new =>
      let s1 :=
        merge s (only_users
                   (map (fun u =>
                           if String.eqb (User.id u) (UserRow.id new)
                           then mapUser new else u)
                        (users s))) in
      match currentUser s with
      | Some cu =>
          if String.eqb (User.id cu) (UserRow.id new)
          then merge s1 (only_currentUser (Some (mapUser new)))
          else s1
      | None => s1
      end
  | DELETE old_id =>
      merge s (only_users
                 (filter (fun u => negb (String.eqb (User.id u) old_id)) (users s)))
  end.
Proof.
  unfold deliver, handler, onUsersChange.
  destruct payload as [new | new | old_id]; simpl; try reflexivity.
  destruct (currentUser s) as [cu | ]; [ | reflexivity].
  destruct (String.eqb (User.id cu) (UserRow.id new)); reflexivity.
Qed.

Lemma deliver_users_messages (b : Backend) (s : AppState) (payload : UsersChange) :
  messages (deliver b s (UsersChanged payload)) = messages s.
Proof.
  rewrite deliver_users.
  destruct payload as [new | new | old_id]; simpl; try reflexivity.
  destruct (currentUser s) as [cu | ]; [ | reflexivity].
  destruct (String.eqb (User.id cu) (UserRow.id new)); reflexivity.
Qed.


Lemma deliver_all_app (b : Backend) (ns1 ns2 : list Notification) (s : AppState) :
  deliver_all b (ns1 ++ ns2) s = deliver_all b ns2 (deliver_all b ns1 s).
Proof. unfold deliver_all. apply fold_left_app. Qed.

(** ** Operations without a session *)

(** C10. While no session exists ([currentUser] is null), each of
    [updateLocation], [toggleOnline], [togglePremium] and [sendMessage]
    returns at once: the whole client state is left as it was, no request is
    issued to the backend, and nothing is written to the console. *)
Theorem mutations_without_session
    (b : Backend) (s : AppState) (Hnone : currentUser s = None)
    (location : Location.t) (isOnline isPremium : bool) (to text : string) :
  run b (updateLocation location) s = mkOutcome tt s [] [] /\
  run b (toggleOnline isOnline) s = mkOutcome tt s [] [] /\
  run b (togglePremium isPremium) s = mkOutcome tt s [] [] /\
  run b (sendMessage to text) s = mkOutcome tt s [] [].
Proof.
  unfold updateLocation, toggleOnline, togglePremium, sendMessage.
  simpl. rewrite Hnone. simpl. repeat split.
Qed.

Lemma mutations_without_session_witness :
  currentUser Sample.empty = None /\
  run Sample.accepting (updateLocation Sample.sf) Sample.empty
  = mkOutcome tt Sample.empty [] [] /\
  run Sample.accepting (toggleOnline true) Sample.empty
  = mkOutcome tt Sample.empty [] [] /\
  run Sample.accepting (togglePremium true) Sample.empty
  = mkOutcome tt Sample.empty [] [] /\
  run Sample.accepting (sendMessage "u2" "hello") Sample.empty
  = mkOutcome tt Sample.empty [] [].
Proof.
  split; [reflexivity | ].
  apply (mutations_without_session Sample.accepting Sample.empty); reflexivity.
Defined.

(** With a session the same operations do reach the backend, so the guard
    above is what keeps them silent. *)
Lemma toggleOnline_with_session (b : Backend) (s : AppState) (cu : User.t) (on : bool) :
  currentUser s = Some cu ->
  requests (run b (toggleOnline on) s)
  = [issued (UpdateUser (User.id cu) (UpdateOnline on))] /\
  option_map User.isOnline (currentUser (state (run b (toggleOnline on) s)))
  = Some on.
Proof.
  intros H. unfold toggleOnline. simpl. rewrite H. simpl. split; reflexivity.
Qed.

(** ** Rejected creations *)

(** C4 (as the code has it). When the backend rejects the creation (it
    reports an error or returns no row), [connect], whatever the store
    holds, resolves to a message string (the backend's message, or a
    fixed one when it is missing) after a single creation request, and
    leaves the store untouched; [sendMessage], called with a session,
    resolves to [undefined] after a single creation request and with the
    store untouched, and writes the failure to the console when an error
    was reported (nothing when the backend only returned no row).
    Neither retries. *)
Theorem creation_rejected (b : Backend) (s : AppState) :
  (forall name role,
     rejected (answer b (InsertUser name role)) ->
     run b (connect true name role) s
     = mkOutcome
         (Some (connect_failure_message (error (answer b (InsertUser name role)))))
         s [issued (InsertUser name role)] ["Failed to create user:"] /\
     exists msg,
       settled_connect (result (run b (connect true name role) s)) = Str msg) /\
  (forall cu to text,
     currentUser s = Some cu ->
     rejected (answer b (InsertMessage (User.id cu) to text)) ->
     run b (sendMessage to text) s
     = mkOutcome tt s [issued (InsertMessage (User.id cu) to text)]
         match error (answer b (InsertMessage (User.id cu) to text)) with
         | Some _ => ["Failed to send message:"]
         | None => []
         end /\
     settled_void (result (run b (sendMessage to text) s)) = Undefined).
Proof.
  split.
  - intros name role Hconnect.
    assert (Hc : run b (connect true name role) s
                 = mkOutcome
                     (Some (connect_failure_message
                              (error (answer b (InsertUser name role)))))
                     s [issued (InsertUser name role)] ["Failed to create user:"]).
    { unfold connect, connect_failure_message. simpl.
      destruct Hconnect as [He | Hd].
      - destruct (error (answer b (InsertUser name role))) as [e | ]; [ | congruence].
        reflexivity.
      - rewrite Hd.
        destruct (error (answer b (InsertUser name role))) as [e | ]; reflexivity. }
    split; [exact Hc | ].
    rewrite Hc. simpl. eexists. reflexivity.
  - intros cu to text Hsession Hsend. split; [ | reflexivity].
    unfold sendMessage. simpl. rewrite Hsession. simpl.
    destruct (error (answer b (InsertMessage (User.id cu) to text))) as [e | ] eqn:He;
      [reflexivity | ].
    destruct Hsend as [H | Hd]; [congruence | ].
    unfold answer in *. rewrite Hd. destruct s; reflexivity.
Qed.

Lemma creation_rejected_witness :
  rejected (answer Sample.rejecting (InsertUser "Alice" driver)) /\
  run Sample.rejecting (connect true "Alice" driver) Sample.empty
  = mkOutcome (Some "permission denied") Sample.empty
      [issued (InsertUser "Alice" driver)] ["Failed to create user:"] /\
  currentUser Sample.session = Some Sample.alice /\
  rejected (answer Sample.silent (InsertMessage (User.id Sample.alice) "u2" "hello")) /\
  run Sample.silent (sendMessage "u2" "hello") Sample.session
  = mkOutcome tt Sample.session [issued (InsertMessage "u1" "u2" "hello")] [].
Proof.
  assert (H1 : rejected (answer Sample.rejecting (InsertUser "Alice" driver)))
    by (left; discriminate).
  assert (H2 : currentUser Sample.session = Some Sample.alice) by reflexivity.
  assert (H3 : rejected (answer Sample.silent
                           (InsertMessage (User.id Sample.alice) "u2" "hello")))
    by (right; reflexivity).
  split; [exact H1 | ].
  split; [exact (proj1 (proj1 (@creation_rejected Sample.rejecting Sample.empty)
                          "Alice" driver H1)) | ].
  split; [exact H2 | ]. split; [exact H3 | ].
  exact (proj1 (proj2 (@creation_rejected Sample.silent Sample.session)
                  Sample.alice "u2" "hello" H2 H3)).
Defined.

(** C4, as stated, fails for [sendMessage]: under a rejecting backend its
    caller receives [undefined], not a message string. *)
Lemma sendMessage_rejection_not_surfaced :
  error (answer Sample.rejecting (InsertMessage "u1" "u2" "hello")) = Some Sample.denied /\
  settled_void (result (run Sample.rejecting (sendMessage "u2" "hello") Sample.session))
  = Undefined /\
  ~ (exists msg,
        settled_void
          (result (run Sample.rejecting (sendMessage "u2" "hello") Sample.session))
        = Str msg).
Proof.
  split; [reflexivity | ]. split; [reflexivity | ].
  intros [msg H]. discriminate H.
Qed.

(** ** The roster under the change feed *)



(** Replacing the entries with a given id by one that carries the same id
    leaves the sequence of ids as it was. *)
Lemma user_ids_replace (new : User.t) (l : list User.t) :
  user_ids (map (fun u => if String.eqb (User.id u) (User.id new) then new else u) l)
  = user_ids l.
Proof.
  unfold user_ids. induction l as [ | u l IH]; simpl; [reflexivity | ].
  rewrite IH. f_equal.
  destruct (String.eqb_spec (User.id u) (User.id new)) as [E | E]; congruence.
Qed.


Lemma NoDup_snoc {A : Type} (l : list A) (x : A) :
  NoDup l -> ~ In x l -> NoDup (l ++ [x]).
Proof.
  intros Hl Hx. induction Hl as [ | y l Hy Hl IH]; simpl.
  - constructor; [intros [] | constructor].
  - constructor.
    + rewrite in_app_iff. simpl. intros [H | [H | []]]; [contradiction | ].
      subst. apply Hx. left. reflexivity.
    + apply IH. intros H. apply Hx. right. exact H.
Qed.





(** ** The message log under the change feed *)

Lemma subseq_refl {A : Type} (l : list A) : subseq l l.
Proof. induction l; constructor; assumption. Qed.

Lemma subseq_nil_l {A : Type} (l : list A) : subseq [] l.
Proof. induction l; constructor; assumption. Qed.

Lemma subseq_app {A : Type} (l1 l2 l1' l2' : list A) :
  subseq l1 l1' -> subseq l2 l2' -> subseq (l1 ++ l2) (l1' ++ l2').
Proof.
  intros H1 H2. induction H1; simpl; try constructor; assumption.
Qed.

Lemma subseq_In {A : Type} (l1 l2 : list A) (x : A) :
  subseq l1 l2 -> In x l1 -> In x l2.
Proof.
  intros H. induction H; simpl; intros Hin; auto.
  destruct Hin as [-> | Hin]; auto.
Qed.

(** A list that is sorted stays sorted when elements are left out. *)
Lemma StronglySorted_subseq {A : Type} (R : A -> A -> Prop) (l1 l2 : list A) :
  subseq l1 l2 -> StronglySorted R l2 -> StronglySorted R l1.
Proof.
  intros H. induction H as [ | x l1 l2 H IH | x l1 l2 H IH]; intros Hs.
  - constructor.
  - inversion Hs; subst. auto.
  - inversion Hs as [ | y l Hl Hall]; subst.
    constructor; [auto | ].
    rewrite Forall_forall in *. intros y Hy. apply Hall.
    eapply subseq_In; eassumption.
Qed.

(** A message notification appends at most its own message, at the end. *)
Lemma deliver_message_log (b : Backend) (s : AppState) (row : MessageRow.t) :
  messages (deliver b s (MessageInserted row)) = messages s \/
  messages (deliver b s (MessageInserted row)) = messages s ++ [mapMessage row].
Proof.
  rewrite deliver_message.
  destruct (currentUser s) as [cu | ]; [ | left; reflexivity].
  destruct (_ || _); [ | left; reflexivity].
  destruct (find _ (messages s)); [left | right]; reflexivity.
Qed.

(** C2 (as the code has it). After a sequence of message-insert
    notifications the log is the earlier log followed by the accepted
    messages in their order of arrival: each accepted message is appended
    at the end and nothing is sorted.  The iteration order is therefore
    ascending by creation timestamp when the notifications arrive in
    ascending timestamp order, after the messages already in the log. *)
Theorem log_in_arrival_order
    (b : Backend) (rows : list MessageRow.t) (s : AppState) :
  exists accepted,
    messages (deliver_all b (map MessageInserted rows) s) = messages s ++ accepted /\
    subseq accepted (map mapMessage rows) /\
    (ascending (messages s ++ map mapMessage rows) ->
     ascending (messages (deliver_all b (map MessageInserted rows) s))).
Proof.
  assert (H : exists accepted,
             messages (deliver_all b (map MessageInserted rows) s)
             = messages s ++ accepted /\
             subseq accepted (map mapMessage rows)).
  { revert s. induction rows as [ | row rows IH]; intros s.
    - exists []. simpl. rewrite app_nil_r. split; [reflexivity | constructor].
    - simpl. destruct (IH (deliver b s (MessageInserted row))) as (acc & Hm & Hs).
      destruct (deliver_message_log b s row) as [E | E]; rewrite E in Hm.
      + exists acc. split; [exact Hm | apply subseq_skip; exact Hs].
      + exists (mapMessage row :: acc). split.
        * rewrite Hm, <- app_assoc. reflexivity.
        * apply subseq_keep. exact Hs. }
  destruct H as (acc & Hm & Hs). exists acc.
  split; [exact Hm | ]. split; [exact Hs | ].
  rewrite Hm. unfold ascending. apply StronglySorted_subseq.
  apply subseq_app; [apply subseq_refl | exact Hs].
Qed.

(** C2, as stated, fails: two messages with distinct timestamps whose
    notifications arrive latest first are logged latest first. *)
Lemma log_out_of_order :
  distinct_timestamps [Sample.late_row; Sample.early_row] /\
  messages (deliver_all Sample.accepting
              [MessageInserted Sample.late_row; MessageInserted Sample.early_row]
              Sample.session)
  = [mapMessage Sample.late_row; mapMessage Sample.early_row] /\
  ~ ascending
      (messages (deliver_all Sample.accepting
                   [MessageInserted Sample.late_row; MessageInserted Sample.early_row]
                   Sample.session)).
Proof.
  split.
  { unfold distinct_timestamps. repeat constructor. }
  split; [reflexivity | ].
  intros H.
  change (ascending [mapMessage Sample.late_row; mapMessage Sample.early_row]) in H.
  inversion H as [ | x l _ Hall]; subst.
  inversion Hall as [ | y l' Hlt _]; subst.
  vm_compute in Hlt. discriminate Hlt.
Qed.

(** ** Deduplication of the optimistic copy *)

Lemma entries_with_id_app (i : string) (l1 l2 : list Message.t) :
  entries_with_id i (l1 ++ l2) = (entries_with_id i l1 + entries_with_id i l2)%nat.
Proof. unfold entries_with_id. rewrite filter_app, length_app. reflexivity. Qed.

Lemma find_none_entries (i : string) (l : list Message.t) :
  find (fun m => String.eqb (Message.id m) i) l = None <-> entries_with_id i l = 0%nat.
Proof.
  unfold entries_with_id. induction l as [ | m l IH]; simpl; [tauto | ].
  destruct (String.eqb (Message.id m) i); simpl; [ | exact IH].
  split; discriminate.
Qed.

(** Once an id is in the log, no notification changes how often it
    occurs. *)
Lemma deliver_keeps_entries (b : Backend) (s : AppState) (n : Notification) (i : string) :
  entries_with_id i (messages s) <> 0%nat ->
  entries_with_id i (messages (deliver b s n)) = entries_with_id i (messages s).
Proof.
  intros Hpresent. destruct n as [payload | row].
  - rewrite deliver_users_messages. reflexivity.
  - rewrite deliver_message.
    destruct (currentUser s) as [cu | ]; [ | reflexivity].
    destruct (_ || _); [ | reflexivity].
    destruct (find _ (messages s)) eqn:Hfind; [reflexivity | ].
    simpl. rewrite entries_with_id_app.
    unfold entries_with_id at 2. simpl.
    destruct (String.eqb_spec (MessageRow.id row) i) as [E | E]; simpl; [ | lia].
    subst i. apply find_none_entries in Hfind. contradiction.
Qed.

Lemma deliver_all_keeps_entries
    (b : Backend) (ns : list Notification) (s : AppState) (i : string) :
  entries_with_id i (messages s) <> 0%nat ->
  entries_with_id i (messages (deliver_all b ns s)) = entries_with_id i (messages s).
Proof.
  revert s. induction ns as [ | n ns IH]; intros s H; [reflexivity | ].
  simpl. rewrite IH; rewrite deliver_keeps_entries; auto.
Qed.

(** What [sendMessage] does to the log when the backend acknowledges the
    insert with the created row. *)
Lemma sendMessage_acknowledged
    (b : Backend) (s : AppState) (cu : User.t) (to text : string) (row : MessageRow.t) :
  currentUser s = Some cu ->
  answer b (InsertMessage (User.id cu) to text) = mkResponse (Some row) None ->
  state (run b (sendMessage to text) s) =
  match find (fun m => String.eqb (Message.id m) (MessageRow.id row)) (messages s) with
  | None => merge s (only_messages (messages s ++ [mapMessage row]))
  | Some _ => s
  end.
Proof.
  intros Hcu Hack. unfold sendMessage. simpl. rewrite Hcu. simpl.
  rewrite Hack. simpl.
  destruct (find _ (messages s)); reflexivity.
Qed.

(** C6. When [sendMessage] has appended the acknowledged message to the
    log (no entry had its id before), a later feed echo carrying the same id
    is absorbed: it leaves the log as it is, with exactly one entry for that
    id, whatever other notifications were applied in between. *)
Theorem echo_absorbed
    (b : Backend) (s : AppState) (cu : User.t) (to text : string)
    (row echo : MessageRow.t) (between : list Notification)
    (Hsession : currentUser s = Some cu)
    (Hack : answer b (InsertMessage (User.id cu) to text) = mkResponse (Some row) None)
    (Hnew : entries_with_id (MessageRow.id row) (messages s) = 0%nat)
    (Hecho : MessageRow.id echo = MessageRow.id row) :
  let sent := state (run b (sendMessage to text) s) in
  let before := deliver_all b between sent in
  let after := deliver b before (MessageInserted echo) in
  messages sent = messages s ++ [mapMessage row] /\
  messages after = messages before /\
  entries_with_id (MessageRow.id row) (messages after) = 1%nat.
Proof.
  intros sent before after.
  assert (Hsent : messages sent = messages s ++ [mapMessage row]).
  { unfold sent. rewrite (sendMessage_acknowledged b s to text Hsession Hack).
    apply find_none_entries in Hnew. rewrite Hnew. reflexivity. }
  assert (Hone : entries_with_id (MessageRow.id row) (messages sent) = 1%nat).
  { rewrite Hsent, entries_with_id_app, Hnew. unfold entries_with_id. simpl.
    rewrite String.eqb_refl. reflexivity. }
  assert (Hbefore : entries_with_id (MessageRow.id row) (messages before) = 1%nat).
  { unfold before. rewrite deliver_all_keeps_entries; lia. }
  assert (Hafter : messages after = messages before).
  { unfold after. destruct (deliver_message_log b before echo) as [E | E]; [exact E | ].
    exfalso.
    assert (Hk : entries_with_id (MessageRow.id row)
                   (messages (deliver b before (MessageInserted echo)))
                 = entries_with_id (MessageRow.id row) (messages before))
      by (apply deliver_keeps_entries; lia).
    assert (Hlast : entries_with_id (MessageRow.id row) [mapMessage echo] = 1%nat).
    { unfold entries_with_id. simpl. rewrite Hecho, String.eqb_refl. reflexivity. }
    rewrite E, entries_with_id_app, Hlast in Hk. lia. }
  split; [exact Hsent | ]. split; [exact Hafter | ].
  rewrite Hafter. exact Hbefore.
Qed.

Lemma echo_absorbed_witness :
  let sent := state (run Sample.accepting (sendMessage "u2" "hello") Sample.session) in
  let echo := MessageRow.mk "m9" "u1" "u2" "hello" "2024-01-01T00:00:09Z" in
  let before := deliver_all Sample.accepting [MessageInserted Sample.early_row] sent in
  let after := deliver Sample.accepting before (MessageInserted echo) in
  messages sent = [mapMessage echo] /\
  messages after = messages before /\
  entries_with_id "m9" (messages after) = 1%nat.
Proof.
  exact (@echo_absorbed Sample.accepting Sample.session Sample.alice "u2" "hello"
           (MessageRow.mk "m9" "u1" "u2" "hello" "2024-01-01T00:00:09Z")
           (MessageRow.mk "m9" "u1" "u2" "hello" "2024-01-01T00:00:09Z")
           [MessageInserted Sample.early_row]
           eq_refl eq_refl eq_refl eq_refl).
Defined.

(** The other order: the echo is delivered while [sendMessage] is still
    waiting for the acknowledgment.  The callback appends the message, and
    the resumed operation finds it and appends nothing. *)
Lemma echo_before_acknowledgment
    (b : Backend) (s : AppState) (cu : User.t) (to text : string) (row : MessageRow.t) :
  currentUser s = Some cu ->
  entries_with_id (MessageRow.id row) (messages s) = 0%nat ->
  MessageRow.from_user row = User.id cu ->
  exists k,
    advance b (sendMessage to text) s
    = mkOutcome (Waiting (InsertMessage (User.id cu) to text) k) s
        [issued (InsertMessage (User.id cu) to text)] [] /\
    let echoed := deliver b s (MessageInserted row) in
    let resumed := state (run b (k (mkResponse (Some row) None)) echoed) in
    messages echoed = messages s ++ [mapMessage row] /\
    messages resumed = messages echoed /\
    entries_with_id (MessageRow.id row) (messages resumed) = 1%nat.
Proof.
  intros Hcu Hnew Hfrom.
  unfold sendMessage. simpl. rewrite Hcu. simpl.
  eexists. split; [reflexivity | ].
  cbv zeta.
  assert (He : deliver b s (MessageInserted row)
               = merge s (only_messages (messages s ++ [mapMessage row]))).
  { rewrite deliver_message, Hcu, Hfrom, String.eqb_refl. simpl.
    apply find_none_entries in Hnew. rewrite Hnew. reflexivity. }
  rewrite He. simpl.
  assert (Hfind : find (fun m => String.eqb (Message.id m) (MessageRow.id row))
                    (messages s ++ [mapMessage row]) <> None).
  { rewrite find_none_entries, entries_with_id_app, Hnew.
    unfold entries_with_id. simpl. rewrite String.eqb_refl. discriminate. }
  destruct (find _ (messages s ++ [mapMessage row])); [ | congruence].
  simpl. split; [reflexivity | ]. split; [reflexivity | ].
  rewrite entries_with_id_app, Hnew. unfold entries_with_id. simpl.
  rewrite String.eqb_refl. reflexivity.
Qed.

(* ================================================================== *)
(** * Properties of the route summarizer *)
(* ================================================================== *)

(** ** Failure of the directions provider *)

Section RouteFacts.

Variable toString_other : number -> string.

(** C5. When the directions provider is unreachable, returns a non-success
    status or returns an empty route list, [fetchRoute] resolves to [null];
    and on no input at all does its promise reject, so no exception crosses
    the component boundary. *)
Theorem fetchRoute_no_route
    (fetch : string -> FetchResult) (from to : number * number)
    (Hfail : provider_failed (fetch (routeUrl toString_other from to))) :
  fst (fetchRoute toString_other fetch from to) = Normal None /\
  forall fetch' from' to',
    exists outcome, fst (fetchRoute toString_other fetch' from' to') = Normal outcome.
Proof.
  split.
  - unfold fetchRoute, fetchRoute_try.
    destruct (fetch (routeUrl toString_other from to)) as [reason | ok body];
      [reflexivity | ].
    simpl in Hfail. destruct Hfail as [-> | (d & -> & Hroutes)]; [reflexivity | ].
    destruct ok; [ | reflexivity]. simpl.
    destruct Hroutes as [-> | ->]; rewrite orb_true_r; reflexivity.
  - intros fetch' from' to'. unfold fetchRoute.
    destruct (fetchRoute_try toString_other fetch' from' to');
      eexists; reflexivity.
Qed.

(** The same outcome for an answer whose code is not [Ok] or whose body
    cannot be read. *)
Lemma fetchRoute_bad_answer
    (fetch : string -> FetchResult) (from to : number * number) (ok : bool) (body : JsonResult) :
  fetch (routeUrl toString_other from to) = FetchResponse ok body ->
  match body with
  | JsonRejected _ => True
  | Json d => OsrmData.code d <> "Ok"
  end ->
  fst (fetchRoute toString_other fetch from to) = Normal None.
Proof.
  intros Hf Hbody. unfold fetchRoute, fetchRoute_try. rewrite Hf.
  destruct ok; [ | reflexivity]. simpl.
  destruct body as [reason | d]; [reflexivity | ].
  apply String.eqb_neq in Hbody. rewrite Hbody. reflexivity.
Qed.

(** A successful answer is summarized with the fixed unit conversions and
    the axis order swapped. *)
Lemma fetchRoute_success
    (fetch : string -> FetchResult) (from to : number * number)
    (route : OsrmRoute.t) (others : list OsrmRoute.t)
    (cs : list (number * number)) (leg : OsrmLeg.t) (legs : list OsrmLeg.t)
    (steps : list RouteStep) :
  fetch (routeUrl toString_other from to)
  = FetchResponse true (Json (OsrmData.mk "Ok" (Some (route :: others)))) ->
  OsrmRoute.geometry route = Some cs ->
  OsrmRoute.legs route = leg :: legs ->
  cmap mapStep (OsrmLeg.steps leg) = Normal steps ->
  fetchRoute toString_other fetch from to
  = (Normal (Some (mkRouteData
                     (map (fun c => (snd c, fst c)) cs)
                     (OsrmRoute.distance route / 1000)%float
                     (OsrmRoute.duration route / 60)%float
                     steps)), []).
Proof.
  intros Hf Hg Hl Hs. unfold fetchRoute, fetchRoute_try.
  rewrite Hf. simpl. rewrite Hg, Hl, Hs. reflexivity.
Qed.

End RouteFacts.

Lemma fetchRoute_no_route_witness :
  let fetch := fun _ : string => FetchResponse false (JsonRejected "Bad Gateway") in
  provider_failed (fetch (routeUrl (fun _ => "?") (1, 2)%float (3, 4)%float)) /\
  fst (fetchRoute (fun _ => "?") fetch (1, 2)%float (3, 4)%float) = Normal None.
Proof.
  split; [left; reflexivity | ].
  apply (@fetchRoute_no_route (fun _ => "?")
           (fun _ : string => FetchResponse false (JsonRejected "Bad Gateway"))
           (1, 2)%float (3, 4)%float).
  left. reflexivity.
Defined.

(** ** Instruction strings *)


Lemma capitalize_capitalized (s : string) : capitalize s = capitalized s.
Proof. destruct s; reflexivity. Qed.

Lemma String_map_length (f : ascii -> ascii) (s : string) :
  String.length (String_map f s) = String.length s.
Proof. induction s; simpl; congruence. Qed.

Lemma String_map_get (f : ascii -> ascii) (s : string) (n : nat) :
  String.get n (String_map f s) = option_map f (String.get n s).
Proof.
  revert n. induction s as [ | c s IH]; intros n; simpl; [reflexivity | ].
  destruct n; simpl; [reflexivity | apply IH].
Qed.

(** [capitalize] character by character. *)
Lemma capitalize_chars (s : string) :
  String.length (capitalize s) = String.length s /\
  String.get 0 (capitalize s) = option_map toUpperCase_ascii (String.get 0 s) /\
  forall n,
    String.get (S n) (capitalize s)
    = option_map (fun x => if Ascii.eqb x "-" then " "%char else x)
        (String.get (S n) s).
Proof.
  rewrite capitalize_capitalized.
  destruct s as [ | c s]; simpl; [repeat split | ].
  rewrite String_map_length. repeat split.
  intros n. apply String_map_get.
Qed.



Example stepInstruction_turn :
  stepInstruction (Maneuver.mk "turn" (Some "left")) (Some "Market Street")
  = "Turn left — Market Street".
Proof. reflexivity. Qed.

Example stepInstruction_unnamed :
  stepInstruction (Maneuver.mk "exit-roundabout" None) (Some EmptyString)
  = "Exit roundabout — unnamed road".
Proof. reflexivity. Qed.

(** ** Formatting of durations and distances *)

(** A duration below one minute is below sixty minutes. *)
Lemma ltb_1_60 (x : number) : (x <? 1)%float = true -> (x <? 60)%float = true.
Proof.
  rewrite !ltb_spec.
  change (Prim2SF 1) with (S754_finite false 4503599627370496 (-52)).
  change (Prim2SF 60) with (S754_finite false 8444249301319680 (-47)).
  unfold SFltb, SFcompare.
  destruct (Prim2SF x) as [s | s | | s m e]; try destruct s; try tauto.
  destruct (Z.compare_spec e (-52)); destruct (Z.compare_spec e (-47));
    try tauto; try lia; discriminate.
Qed.

Section FormatFacts.

Variable toString_other : number -> string.

Local Abbreviation toString := (JSNumber.toString toString_other).
Local Abbreviation formatDuration' := (formatDuration toString_other).
Local Abbreviation formatDistance' := (formatDistance toString_other).

Local Open Scope float_scope.

(** Whole numbers up to 1000 are printed with their decimal digits. *)
Lemma toString_whole (n : Z) :
  (0 <= n <= 1000)%Z -> toString (of_Z n) = decimal n.
Proof.
  intros Hn.
  assert (H : forallb (fun k => String.eqb (toString (of_Z k)) (decimal k))
                (map Z.of_nat (seq 0 1001)) = true)
    by (vm_compute; reflexivity).
  rewrite forallb_forall in H. apply String.eqb_eq, H.
  apply in_map_iff. exists (Z.to_nat n). split; [lia | ].
  apply in_seq. lia.
Qed.

(** Below a whole bound of at most 1000, the printed result of
    [Math.round] is the decimal form of the nearest integer. *)
Lemma toString_round_below (N : Z) (b x : number) (mb : positive) (eb : Z) :
  Prim2SF b = S754_finite false mb eb -> (eb < 0)%Z ->
  (2 ^ 52 <= Z.pos mb)%Z -> Z.pos mb = (N * 2 ^ (- eb))%Z -> (N <= 1000)%Z ->
  (0 <=? x) = true -> (x <? b) = true ->
  toString (Math_round x) = decimal (nearest_integer x) /\
  (0 <= nearest_integer x <= N)%Z.
Proof.
  intros Hb Heb Hmb HN HN' H0 Hx.
  destruct (@round_below N b x mb eb Hb Heb Hmb HN H0 Hx)
    as [Hrange [Hr | [Hz [Hr | Hr]]]].
  - split; [ | exact Hrange]. rewrite Hr. apply toString_whole. lia.
  - split; [ | exact Hrange]. rewrite Hr, Hz. reflexivity.
  - split; [ | exact Hrange]. rewrite Hr, Hz. reflexivity.
Qed.

(** C8. For a non-negative input, [formatDuration] returns [< 1 min] below
    one minute, the rounded whole minute count followed by [ min] below
    sixty minutes, and otherwise the integer hour count, [h ], the rounded
    remainder minutes and [m]; [formatDistance] returns the rounded whole
    meter count followed by [ m] below 1000 meters, and otherwise the
    kilometers to one decimal followed by [ km].  The rounded whole counts
    are the decimal digits of the integer nearest to the input; the
    branches cover every non-negative input.  In particular
    formatDuration(0.5) is [< 1 min], formatDuration(45) is [45 min],
    formatDuration(125) is [2h 5m], formatDistance(500) is [500 m] and
    formatDistance(2500) is [2.5 km]. *)
Theorem format_cases
    (minutes meters : number)
    (Hminutes : (0 <=? minutes) = true) (Hmeters : (0 <=? meters) = true) :
  ((minutes <? 1) = true -> formatDuration' minutes = "< 1 min") /\
  ((1 <=? minutes) = true -> (minutes <? 60) = true ->
   formatDuration' minutes = (decimal (nearest_integer minutes) ++ " min")%string /\
   toString (Math_round minutes) = decimal (nearest_integer minutes) /\
   (0 <= nearest_integer minutes <= 60)%Z) /\
  ((60 <=? minutes) = true ->
   formatDuration' minutes
   = (toString (Math_floor (minutes / 60)) ++ "h "
        ++ toString (Math_round (remainder minutes 60)) ++ "m")%string) /\
  ((minutes <? 1) = true \/
   ((1 <=? minutes) = true /\ (minutes <? 60) = true) \/
   (60 <=? minutes) = true) /\
  ((meters <? 1000) = true ->
   formatDistance' meters = (decimal (nearest_integer meters) ++ " m")%string /\
   toString (Math_round meters) = decimal (nearest_integer meters) /\
   (0 <= nearest_integer meters <= 1000)%Z) /\
  ((1000 <=? meters) = true ->
   formatDistance' meters
   = (toFixed toString_other 1 (meters / 1000) ++ " km")%string) /\
  ((meters <? 1000) = true \/ (1000 <=? meters) = true) /\
  formatDuration' 0.5 = "< 1 min" /\
  formatDuration' 45 = "45 min" /\
  formatDuration' 125 = "2h 5m" /\
  formatDistance' 500 = "500 m" /\
  formatDistance' 2500 = "2.5 km".
Proof.
  assert (Hnan1 := @leb_not_nan 0 minutes Hminutes).
  assert (Hnan2 := @leb_not_nan 0 meters Hmeters).
  unfold formatDuration, formatDistance.
  split; [intros ->; reflexivity | ].
  split.
  { intros H1 H60. rewrite (@leb_ltb_false minutes 1 H1), H60.
    destruct (@toString_round_below 60 60 minutes 8444249301319680 (-47))
      as [Hs Hr]; try reflexivity; try lia; try assumption.
    rewrite Hs. repeat split; lia. }
  split.
  { intros H60. apply leb_ltb_false in H60.
    destruct (minutes <? 1) eqn:H1.
    - apply ltb_1_60 in H1. congruence.
    - rewrite H60. reflexivity. }
  split.
  { destruct (minutes <? 1) eqn:H1; [left; reflexivity | right].
    apply ltb_false_leb in H1; [ | assumption | reflexivity].
    destruct (minutes <? 60) eqn:H60; [left; split; [assumption | reflexivity] | right].
    apply ltb_false_leb in H60; [assumption | assumption | reflexivity]. }
  split.
  { intros H. rewrite H.
    destruct (@toString_round_below 1000 1000 meters 8796093022208000 (-43))
      as [Hs Hr]; try reflexivity; try lia; try assumption.
    rewrite Hs. repeat split; lia. }
  split.
  { intros H. apply leb_ltb_false in H. rewrite H. reflexivity. }
  split.
  { destruct (meters <? 1000) eqn:H; [left; reflexivity | right].
    apply ltb_false_leb in H; [assumption | assumption | reflexivity]. }
  repeat split; vm_compute; reflexivity.
Qed.

(** On whole numbers the formatters print the number itself. *)
Lemma format_whole_numbers :
  forallb (fun k => String.eqb (formatDistance' (of_Z k))
                      (decimal k ++ " m")%string)
          (map Z.of_nat (seq 0 1000)) = true /\
  forallb (fun k => String.eqb (formatDuration' (of_Z k))
                      (decimal k ++ " min")%string)
          (map Z.of_nat (seq 1 59)) = true /\
  forallb (fun k => String.eqb (formatDuration' (of_Z k))
                      (decimal (k / 60) ++ "h " ++ decimal (k mod 60) ++ "m")%string)
          (map Z.of_nat (seq 60 1381)) = true.
Proof. repeat split; vm_compute; reflexivity. Qed.

(** Halves round up, and a remainder of sixty minutes is printed as such. *)
Lemma format_rounding_examples :
  formatDuration' 59.5 = "60 min" /\
  formatDuration' 119.5 = "1h 60m" /\
  formatDistance' 999.5 = "1000 m" /\
  formatDistance' 1000 = "1.0 km" /\
  formatDistance' 1250 = "1.3 km".
Proof. repeat split; vm_compute; reflexivity. Qed.

End FormatFacts.

Lemma format_cases_witness :
  ((0 <=? 45) = true /\ (0 <=? 500) = true)%float /\
  formatDuration (fun _ => "?") 45%float = "45 min" /\
  formatDistance (fun _ => "?") 500%float = "500 m" /\
  nearest_integer 45%float = 45%Z /\
  nearest_integer 500%float = 500%Z.
Proof.
  split; [split; reflexivity | ].
  destruct (@format_cases (fun _ => "?") 45%float 500%float eq_refl eq_refl)
    as (_ & _ & _ & _ & _ & _ & _ & _ & H45 & _ & H500 & _).
  repeat split; assumption || reflexivity.
Defined.

(* ================================================================== *)
(** * Further properties of the store *)
(* ================================================================== *)

(** ** Establishing a session *)

(** X1. [connect] is all or nothing.  It resolves to [null] exactly when the
    backend is configured and the creation of the user succeeds; it then
    holds the created user as [currentUser] and the subscription handle,
    has issued its five requests in order, and has replaced the roster and
    the log by the snapshots that came with data.  In every other case it
    resolves to a message, leaves the store as it was and has issued at most
    the creation request; when the backend is not configured it issues
    none. *)
Theorem connect_all_or_nothing
    (configured : bool) (b : Backend) (name : string) (role : Role) (s : AppState) :
  let o := run b (connect configured name role) s in
  let r := answer b (InsertUser name role) in
  (result o = None <-> configured = true /\ error r = None /\ data r <> None) /\
  (result o <> None ->
   state o = s /\
   (requests o = [] \/ requests o = [issued (InsertUser name role)])) /\
  (configured = false -> requests o = [] /\ console o = []) /\
  (result o = None ->
   exists row,
     data r = Some row /\
     currentUser (state o) = Some (mapUser row) /\
     channel (state o) = Some (answer b (SubscribeChanges "rideconnect")) /\
     users (state o)
     = match data (answer b SelectUsers) with
       | Some allUsers => map mapUser allUsers
       | None => users s
       end /\
     messages (state o)
     = match data (answer b (SelectMessages (UserRow.id row))) with
       | Some existingMessages => map mapMessage existingMessages
       | None => messages s
       end /\
     requests o
     = [issued (InsertUser name role); issued SelectUsers;
        issued (SelectMessages (UserRow.id row));
        issued (SubscribeChanges "rideconnect");
        issued (OnBeforeUnloadDeleteUser (UserRow.id row))] /\
     console o = []).
Proof.
  intros o r. subst o r. unfold connect.
  destruct configured; simpl.
  2:{ split; [split; [discriminate | intros (H & _); discriminate H] | ].
      split; [intros _; split; [reflexivity | left; reflexivity] | ].
      split; [intros _; split; reflexivity | ].
      intros H; discriminate H. }
  destruct (error (answer b (InsertUser name role))) as [e | ] eqn:He.
  { simpl.
    split; [split; [discriminate | intros (_ & H & _); discriminate H] | ].
    split; [intros _; split; [reflexivity | right; reflexivity] | ].
    split; [intros H; discriminate H | ].
    intros H; discriminate H. }
  destruct (data (answer b (InsertUser name role))) as [row | ] eqn:Hd.
  2:{ simpl.
      split; [split; [discriminate | intros (_ & _ & H); congruence] | ].
      split; [intros _; split; [reflexivity | right; reflexivity] | ].
      split; [intros H; discriminate H | ].
      intros H; discriminate H. }
  simpl.
  destruct (data (answer b SelectUsers)) as [allUsers | ]; cbn;
    destruct (data (answer b (SelectMessages (UserRow.id row)))) as [existing | ] eqn:Hm;
    cbn;
    (split; [split; [intros _; repeat split; discriminate | reflexivity] | ]);
    (split; [intros H; congruence | ]);
    (split; [intros H; discriminate H | ]);
    intros _; exists row; repeat split;
    unfold answer in *; cbn in Hm; rewrite Hm; reflexivity.
Qed.

(** ** Tearing the session down *)

(** X2. [cleanup] always ends in the empty store.  It releases the channel
    when there is one and asks for the deletion of the user when there is
    one, in that order, and nothing else; run again it issues no request;
    and a message sent afterwards goes nowhere. *)
Theorem cleanup_resets (b : Backend) (s : AppState) (to text : string) :
  let o := run b cleanup s in
  state o = mkState None [] [] None /\
  requests o
  = match channel s with
    | Some ch => [issued (RemoveChannel ch)]
    | None => []
    end
    ++ match currentUser s with
       | Some cu => [issued (DeleteUser (User.id cu))]
       | None => []
       end /\
  console o = [] /\
  run b cleanup (state o) = mkOutcome tt (state o) [] [] /\
  run b (sendMessage to text) (state o) = mkOutcome tt (state o) [] [].
Proof.
  unfold cleanup. simpl.
  destruct (channel s) as [ch | ], (currentUser s) as [cu | ]; simpl;
    repeat split.
Qed.

(** ** Optimistic updates *)

(** X3. With a session, each of [updateLocation], [toggleOnline] and
    [togglePremium] has changed [currentUser] by the time it suspends on its
    single update request, which names the user's id; the roster, the log
    and the channel are not touched, identity, name and role are kept, and
    the answer of the backend changes nothing any more. *)
Theorem optimistic_update_before_answer
    (b : Backend) (s : AppState) (cu : User.t)
    (location : Location.t) (isOnline isPremium : bool)
    (Hsession : currentUser s = Some cu) :
  (exists k cu',
     advance b (updateLocation location) s
     = mkOutcome
         (Waiting (UpdateUser (User.id cu)
                     (UpdateLocation (Location.lat location) (Location.lng location))) k)
         (mkState (Some cu') (users s) (messages s) (channel s))
         [issued (UpdateUser (User.id cu)
                    (UpdateLocation (Location.lat location) (Location.lng location)))]
         [] /\
     state (run b (updateLocation location) s)
     = mkState (Some cu') (users s) (messages s) (channel s) /\
     User.location cu' = Some location /\
     User.lat cu' = Some (Location.lat location) /\
     User.lng cu' = Some (Location.lng location) /\
     (User.id cu', User.name cu', User.role cu', User.isOnline cu', User.isPremium cu')
     = (User.id cu, User.name cu, User.role cu, User.isOnline cu, User.isPremium cu)) /\
  (exists k cu',
     advance b (toggleOnline isOnline) s
     = mkOutcome
         (Waiting (UpdateUser (User.id cu) (UpdateOnline isOnline)) k)
         (mkState (Some cu') (users s) (messages s) (channel s))
         [issued (UpdateUser (User.id cu) (UpdateOnline isOnline))] [] /\
     state (run b (toggleOnline isOnline) s)
     = mkState (Some cu') (users s) (messages s) (channel s) /\
     User.isOnline cu' = isOnline /\ User.is_online cu' = isOnline /\
     (User.id cu', User.name cu', User.role cu', User.location cu', User.isPremium cu')
     = (User.id cu, User.name cu, User.role cu, User.location cu, User.isPremium cu)) /\
  (exists k cu',
     advance b (togglePremium isPremium) s
     = mkOutcome
         (Waiting (UpdateUser (User.id cu) (UpdatePremium isPremium)) k)
         (mkState (Some cu') (users s) (messages s) (channel s))
         [issued (UpdateUser (User.id cu) (UpdatePremium isPremium))] [] /\
     state (run b (togglePremium isPremium) s)
     = mkState (Some cu') (users s) (messages s) (channel s) /\
     User.isPremium cu' = isPremium /\ User.is_premium cu' = isPremium /\
     (User.id cu', User.name cu', User.role cu', User.location cu', User.isOnline cu')
     = (User.id cu, User.name cu, User.role cu, User.location cu, User.isOnline cu)).
Proof.
  unfold updateLocation, toggleOnline, togglePremium. simpl.
  rewrite Hsession. simpl.
  split; [ | split]; eexists; eexists; repeat split.
Qed.

Lemma optimistic_update_before_answer_witness :
  currentUser Sample.session = Some Sample.alice /\
  option_map User.isPremium
    (currentUser (state (advance Sample.accepting (togglePremium true) Sample.session)))
  = Some true /\
  users (state (run Sample.accepting (togglePremium true) Sample.session))
  = users Sample.session.
Proof.
  split; [reflexivity | ].
  destruct (@optimistic_update_before_answer Sample.accepting Sample.session
              Sample.alice Sample.sf true true eq_refl)
    as (_ & _ & (k & cu' & Ha & Hr & Hp & _)).
  rewrite Ha, Hr. simpl. rewrite Hp. split; reflexivity.
Defined.

(** ** Updates and deletions of the roster *)

Lemma map_replace_absent (new : User.t) (l : list User.t) :
  ~ In (User.id new) (user_ids l) ->
  map (fun u => if String.eqb (User.id u) (User.id new) then new else u) l = l.
Proof.
  unfold user_ids. induction l as [ | u l IH]; simpl; intros H; [reflexivity | ].
  destruct (String.eqb_spec (User.id u) (User.id new)) as [E | E]; [tauto | ].
  rewrite IH; tauto.
Qed.

Lemma filter_absent (k : string) (l : list User.t) :
  ~ In k (user_ids l) ->
  filter (fun u => negb (String.eqb (User.id u) k)) l = l.
Proof.
  unfold user_ids. induction l as [ | u l IH]; simpl; intros H; [reflexivity | ].
  destruct (String.eqb_spec (User.id u) k) as [E | E]; [tauto | ].
  simpl. rewrite IH; tauto.
Qed.

(** X4. An update notification rewrites the roster entries that carry its id
    and nothing else: the sequence of ids and the log are unchanged, every
    entry with the id becomes the mapped row, every other entry stays, and an
    id that is not in the roster leaves the roster as it is (the user is not
    added).  [currentUser] is replaced by the mapped row exactly when it has
    that id. *)
Theorem users_update_replaces_by_id (b : Backend) (s : AppState) (row : UserRow.t) :
  let s' := deliver b s (UsersChanged (UPDATE row)) in
  user_ids (users s') = user_ids (users s) /\
  (forall u, In u (users s') -> User.id u = UserRow.id row -> u = mapUser row) /\
  (forall u, In u (users s) -> User.id u <> UserRow.id row -> In u (users s')) /\
  (~ In (UserRow.id row) (user_ids (users s)) -> users s' = users s) /\
  currentUser s'
  = match currentUser s with
    | Some cu =>
        if String.eqb (User.id cu) (UserRow.id row) then Some (mapUser row)
        else Some cu
    | None => None
    end /\
  messages s' = messages s /\ channel s' = channel s.
Proof.
  intros s'. subst s'. rewrite deliver_users. cbv zeta.
  set (f := fun u => if String.eqb (User.id u) (UserRow.id row) then mapUser row else u).
  assert (Husers : forall t,
             users (match currentUser s with
                    | Some cu =>
                        if String.eqb (User.id cu) (UserRow.id row)
                        then merge (merge s (only_users t))
                               (only_currentUser (Some (mapUser row)))
                        else merge s (only_users t)
                    | None => merge s (only_users t)
                    end) = t).
  { intros t. destruct (currentUser s) as [cu | ]; [ | reflexivity].
    destruct (String.eqb (User.id cu) (UserRow.id row)); reflexivity. }
  rewrite Husers.
  split; [apply (user_ids_replace (mapUser row)) | ].
  split.
  { intros u Hin Hid. apply in_map_iff in Hin. destruct Hin as (v & Hv & _).
    unfold f in Hv. destruct (String.eqb_spec (User.id v) (UserRow.id row)); congruence. }
  split.
  { intros u Hin Hid. apply in_map_iff. exists u. split; [ | exact Hin].
    unfold f. apply String.eqb_neq in Hid. rewrite Hid. reflexivity. }
  split.
  { intros H. apply (@map_replace_absent (mapUser row) (users s)). exact H. }
  destruct (currentUser s) as [cu | ] eqn:Hcu; [ | repeat split; exact Hcu].
  destruct (String.eqb (User.id cu) (UserRow.id row)); repeat split; exact Hcu.
Qed.

(** X5. A delete notification removes every roster entry with its id and
    keeps the others in order; an id that is not in the roster leaves the
    roster as it is.  The session is not affected, even when the deleted id
    is the current user's own. *)
Theorem users_delete_removes_by_id (b : Backend) (s : AppState) (old_id : string) :
  let s' := deliver b s (UsersChanged (DELETE old_id)) in
  ~ In old_id (user_ids (users s')) /\
  subseq (users s') (users s) /\
  (forall u, In u (users s) -> User.id u <> old_id -> In u (users s')) /\
  (~ In old_id (user_ids (users s)) -> s' = s) /\
  currentUser s' = currentUser s /\
  messages s' = messages s /\ channel s' = channel s.
Proof.
  intros s'. subst s'. rewrite deliver_users. simpl.
  split.
  { unfold user_ids. intros H. apply in_map_iff in H. destruct H as (u & Hid & Hin).
    apply filter_In in Hin. destruct Hin as [_ Hf].
    rewrite <- Hid, String.eqb_refl in Hf. discriminate Hf. }
  split; [apply filter_subseq | ].
  split.
  { intros u Hin Hid. apply filter_In. split; [exact Hin | ].
    apply String.eqb_neq in Hid. rewrite Hid. reflexivity. }
  split; [ | repeat split].
  intros H. unfold merge. simpl. rewrite (@filter_absent old_id (users s) H).
  destruct s; reflexivity.
Qed.

(** X6. Inserting a user whose id is new and then deleting that id gives back
    the store one started from. *)
Theorem insert_then_delete
    (b : Backend) (s : AppState) (row : UserRow.t)
    (Hfresh : ~ In (UserRow.id row) (user_ids (users s))) :
  deliver b (deliver b s (UsersChanged (INSERT row)))
    (UsersChanged (DELETE (UserRow.id row)))
  = s.
Proof.
  rewrite !deliver_users. simpl. unfold merge. simpl.
  rewrite filter_app. simpl. rewrite String.eqb_refl. simpl.
  rewrite (@filter_absent (UserRow.id row) (users s) Hfresh), app_nil_r. destruct s; reflexivity.
Qed.

Lemma insert_then_delete_witness :
  ~ In (UserRow.id Sample.bob_row) (user_ids (users Sample.empty)) /\
  deliver Sample.accepting
    (deliver Sample.accepting Sample.empty (UsersChanged (INSERT Sample.bob_row)))
    (UsersChanged (DELETE "u2"))
  = Sample.empty.
Proof.
  assert (H : ~ In (UserRow.id Sample.bob_row) (user_ids (users Sample.empty)))
    by (intros []).
  split; [exact H | ].
  exact (@insert_then_delete Sample.accepting Sample.empty Sample.bob_row H).
Defined.

(** ** The log of messages *)

Lemma find_none_not_in (i : string) (l : list Message.t) :
  find (fun m => String.eqb (Message.id m) i) l = None ->
  ~ In i (map Message.id l).
Proof.
  induction l as [ | m l IH]; simpl; [tauto | ].
  destruct (String.eqb_spec (Message.id m) i) as [E | E]; [discriminate | ].
  intros H [H' | H']; [contradiction | apply IH; assumption].
Qed.

Lemma deliver_keeps_log_unique (b : Backend) (s : AppState) (n : Notification) :
  NoDup (map Message.id (messages s)) ->
  NoDup (map Message.id (messages (deliver b s n))).
Proof.
  intros H. destruct n as [payload | row].
  - rewrite deliver_users_messages. exact H.
  - rewrite deliver_message.
    destruct (currentUser s) as [cu | ]; [ | exact H].
    destruct (_ || _); [ | exact H].
    destruct (find _ (messages s)) eqn:Hfind; [exact H | ].
    simpl. rewrite map_app. simpl. apply NoDup_snoc; [exact H | ].
    apply find_none_not_in. exact Hfind.
Qed.

Lemma sendMessage_log (b : Backend) (s : AppState) (to text : string) :
  messages (state (run b (sendMessage to text) s)) = messages s \/
  exists cu row,
    currentUser s = Some cu /\
    answer b (InsertMessage (User.id cu) to text) = mkResponse (Some row) None /\
    find (fun m => String.eqb (Message.id m) (MessageRow.id row)) (messages s) = None /\
    messages (state (run b (sendMessage to text) s)) = messages s ++ [mapMessage row].
Proof.
  unfold sendMessage. simpl.
  destruct (currentUser s) as [cu | ] eqn:Hcu; [ | left; reflexivity]. simpl.
  unfold answer.
  destruct (b _ (InsertMessage (User.id cu) to text)) as [d e] eqn:Hr. simpl.
  destruct e as [e | ]; [left; reflexivity | ].
  destruct d as [row | ]; [ | left; reflexivity]. simpl.
  destruct (find _ (messages s)) eqn:Hfind; [left; reflexivity | ].
  right. exists cu, row. repeat split; assumption || reflexivity.
Qed.

(** X7. The ids of the log stay pairwise distinct: no sequence of
    notifications and no [sendMessage], whatever the backend answers, puts
    an id into the log a second time. *)
Theorem log_ids_stay_unique
    (b : Backend) (s : AppState) (ns : list Notification) (to text : string)
    (Hunique : NoDup (map Message.id (messages s))) :
  NoDup (map Message.id (messages (deliver_all b ns s))) /\
  NoDup (map Message.id (messages (state (run b (sendMessage to text) s)))) /\
  NoDup (map Message.id
           (messages (deliver_all b ns (state (run b (sendMessage to text) s))))).
Proof.
  assert (Hall : forall ns' s', NoDup (map Message.id (messages s')) ->
                                NoDup (map Message.id (messages (deliver_all b ns' s')))).
  { induction ns' as [ | n ns' IH]; intros s' H; [exact H | ].
    simpl. apply IH, deliver_keeps_log_unique, H. }
  assert (Hsend : NoDup (map Message.id (messages (state (run b (sendMessage to text) s))))).
  { destruct (sendMessage_log b s to text) as [E | (cu & row & _ & _ & Hfind & E)];
      rewrite E; [exact Hunique | ].
    rewrite map_app. simpl. apply NoDup_snoc; [exact Hunique | ].
    apply find_none_not_in. exact Hfind. }
  split; [apply Hall, Hunique | ]. split; [exact Hsend | apply Hall, Hsend].
Qed.

Lemma log_ids_stay_unique_witness :
  NoDup (map Message.id (messages Sample.session)) /\
  NoDup (map Message.id
           (messages
              (deliver_all Sample.accepting
                 [MessageInserted Sample.early_row; MessageInserted Sample.early_row]
                 (state (run Sample.accepting (sendMessage "u2" "hello") Sample.session))))).
Proof.
  assert (H : NoDup (map Message.id (messages Sample.session))) by constructor.
  split; [exact H | ].
  exact (proj2 (proj2 (@log_ids_stay_unique Sample.accepting Sample.session
                         [MessageInserted Sample.early_row;
                          MessageInserted Sample.early_row]
                         "u2" "hello" H))).
Defined.

(** X8. A message notification is dropped, the store staying exactly as it
    is, when there is no session or when the current user is neither the
    sender nor the recipient of the message. *)
Theorem foreign_message_ignored
    (b : Backend) (s : AppState) (row : MessageRow.t)
    (Hforeign : match currentUser s with
                | None => True
                | Some cu =>
                    MessageRow.from_user row <> User.id cu /\
                    MessageRow.to_user row <> User.id cu
                end) :
  deliver b s (MessageInserted row) = s.
Proof.
  rewrite deliver_message.
  destruct (currentUser s) as [cu | ]; [ | reflexivity].
  destruct Hforeign as [Hf Ht].
  apply String.eqb_neq in Hf. apply String.eqb_neq in Ht. rewrite Hf, Ht.
  reflexivity.
Qed.

Lemma foreign_message_ignored_witness :
  deliver Sample.accepting Sample.session
    (MessageInserted (MessageRow.mk "m7" "u2" "u3" "hi" "2024-01-01T00:00:07Z"))
  = Sample.session.
Proof.
  apply (@foreign_message_ignored Sample.accepting Sample.session
           (MessageRow.mk "m7" "u2" "u3" "hi" "2024-01-01T00:00:07Z")).
  simpl. split; discriminate.
Defined.

(** X9. With a session, [sendMessage] issues exactly one request, the insert
    of a message whose sender is the current user's id.  It touches nothing
    but the log, and the log either stays as it is or grows at its end by the
    row the backend returned, under the id the backend gave it; it grows
    only if the backend reported no error and the id was not yet in the
    log. *)
Theorem sendMessage_effect
    (b : Backend) (s : AppState) (cu : User.t) (to text : string)
    (Hsession : currentUser s = Some cu) :
  let o := run b (sendMessage to text) s in
  let r := answer b (InsertMessage (User.id cu) to text) in
  requests o = [issued (InsertMessage (User.id cu) to text)] /\
  currentUser (state o) = currentUser s /\
  users (state o) = users s /\
  channel (state o) = channel s /\
  (messages (state o) = messages s \/
   exists row,
     data r = Some row /\ error r = None /\
     ~ In (MessageRow.id row) (map Message.id (messages s)) /\
     messages (state o) = messages s ++ [mapMessage row] /\
     Message.id (mapMessage row) = MessageRow.id row) /\
  (error r <> None -> state o = s) /\
  (data r = None -> state o = s).
Proof.
  intros o r. subst o r. unfold sendMessage. simpl. rewrite Hsession. simpl.
  unfold answer.
  destruct (b _ (InsertMessage (User.id cu) to text)) as [d e] eqn:Hr. simpl.
  destruct e as [e | ].
  { simpl. repeat split; auto; congruence. }
  destruct d as [row | ].
  2:{ simpl. repeat split; auto; congruence. }
  simpl.
  destruct (find _ (messages s)) eqn:Hfind; simpl.
  { repeat split; auto; congruence. }
  repeat split; try assumption; try congruence.
  right. exists row. repeat split. apply find_none_not_in. exact Hfind.
Qed.

Lemma sendMessage_effect_witness :
  currentUser Sample.session = Some Sample.alice /\
  requests (run Sample.accepting (sendMessage "u2" "hello") Sample.session)
  = [issued (InsertMessage "u1" "u2" "hello")] /\
  users (state (run Sample.accepting (sendMessage "u2" "hello") Sample.session))
  = users Sample.session.
Proof.
  split; [reflexivity | ].
  destruct (@sendMessage_effect Sample.accepting Sample.session Sample.alice
              "u2" "hello" eq_refl) as (Hr & _ & Hu & _).
  split; assumption.
Defined.

(** ** The compatibility fields *)

Lemma mapUser_coherent (row : UserRow.t) : coherent (mapUser row).
Proof. unfold coherent, mapUser. simpl. repeat split. Qed.

Lemma Forall_map_mapUser (rows : list UserRow.t) : Forall coherent (map mapUser rows).
Proof. induction rows; simpl; constructor; auto using mapUser_coherent. Qed.

Lemma deliver_keeps_coherent (b : Backend) (s : AppState) (n : Notification) :
  coherent_state s -> coherent_state (deliver b s n).
Proof.
  intros [Hu Hc]. unfold coherent_state.
  destruct n as [[row | row | old_id] | row].
  - rewrite deliver_users. simpl. split; [ | exact Hc].
    apply Forall_app. split; [exact Hu | ].
    constructor; [apply mapUser_coherent | constructor].
  - rewrite deliver_users. cbv zeta.
    assert (Hmap : Forall coherent
                     (map (fun u => if String.eqb (User.id u) (UserRow.id row)
                                    then mapUser row else u) (users s))).
    { rewrite Forall_forall in *. intros u Hin.
      apply in_map_iff in Hin. destruct Hin as (v & <- & Hv).
      destruct (String.eqb (User.id v) (UserRow.id row));
        [apply mapUser_coherent | auto]. }
    destruct (currentUser s) as [cu | ] eqn:Hcu.
    + destruct (String.eqb (User.id cu) (UserRow.id row)); simpl.
      * split; [exact Hmap | apply mapUser_coherent].
      * rewrite Hcu. split; [exact Hmap | exact Hc].
    + simpl. rewrite Hcu. split; [exact Hmap | exact I].
  - rewrite deliver_users. simpl. split; [ | exact Hc].
    rewrite Forall_forall in *. intros u Hin. apply filter_In in Hin. apply Hu, Hin.
  - rewrite deliver_message.
    destruct (currentUser s) as [cu | ] eqn:Hcu.
    + destruct (_ || _).
      * destruct (find _ (messages s)); simpl; rewrite ?Hcu; split; assumption.
      * rewrite Hcu. split; assumption.
    + rewrite Hcu. split; assumption.
Qed.

(** The store [connect] ends in. *)
Lemma connect_state
    (configured : bool) (b : Backend) (name : string) (role : Role) (s : AppState) :
  state (run b (connect configured name role) s) =
  if configured then
    match error (answer b (InsertUser name role)),
          data (answer b (InsertUser name role)) with
    | None, Some row =>
        mkState (Some (mapUser row))
          match data (answer b SelectUsers) with
          | Some allUsers => map mapUser allUsers
          | None => users s
          end
          match data (answer b (SelectMessages (UserRow.id row))) with
          | Some existingMessages => map mapMessage existingMessages
          | None => messages s
          end
          (Some (answer b (SubscribeChanges "rideconnect")))
    | _, _ => s
    end
  else s.
Proof.
  unfold connect. destruct configured; simpl; [ | reflexivity].
  destruct (error (answer b (InsertUser name role))) as [e | ]; [reflexivity | ].
  destruct (data (answer b (InsertUser name role))) as [row | ]; [ | reflexivity].
  cbn.
  destruct (data (answer b SelectUsers)) as [allUsers | ]; cbn;
    destruct (data (answer b (SelectMessages (UserRow.id row)))) as [existing | ] eqn:Hm;
    cbn; unfold answer in *; cbn in Hm; rewrite ?Hm; reflexivity.
Qed.

(** X10. The compatibility fields never drift from the columns they repeat.
    If [isOnline], [isPremium] and [location] agree with [is_online],
    [is_premium] and [lat]/[lng] for the current user and for every roster
    entry, they still do after any sequence of notifications and after each
    operation of the store, whatever the backend answers. *)
Theorem compatibility_fields_coherent
    (configured : bool) (b : Backend) (s : AppState) (ns : list Notification)
    (name to text : string) (role : Role)
    (location : Location.t) (isOnline isPremium : bool)
    (Hcoherent : coherent_state s) :
  coherent_state (deliver_all b ns s) /\
  coherent_state (state (run b (connect configured name role) s)) /\
  coherent_state (state (run b (updateLocation location) s)) /\
  coherent_state (state (run b (toggleOnline isOnline) s)) /\
  coherent_state (state (run b (togglePremium isPremium) s)) /\
  coherent_state (state (run b (sendMessage to text) s)) /\
  coherent_state (state (run b cleanup s)).
Proof.
  split.
  { revert s Hcoherent. induction ns as [ | n ns IH]; intros s H; [exact H | ].
    simpl. apply IH, deliver_keeps_coherent, H. }
  destruct Hcoherent as [Hu Hc].
  split.
  { rewrite connect_state. destruct configured; [ | split; assumption].
    destruct (error (answer b (InsertUser name role))) as [e | ];
      [split; assumption | ].
    destruct (data (answer b (InsertUser name role))) as [row | ];
      [ | split; assumption].
    split; [ | apply mapUser_coherent]. simpl.
    destruct (data (answer b SelectUsers)) as [allUsers | ];
      [apply Forall_map_mapUser | exact Hu]. }
  assert (Hs : coherent_state s) by (split; assumption).
  assert (Hempty : coherent_state (mkState None [] [] None))
    by (split; [constructor | exact I]).
  unfold updateLocation, toggleOnline, togglePremium, sendMessage, cleanup.
  simpl. destruct (currentUser s) as [cu | ] eqn:Hcu; simpl.
  2:{ do 4 (split; [exact Hs | ]). destruct (channel s); exact Hempty. }
  destruct Hc as (H1 & H2 & H3).
  split.
  { split; [exact Hu | ]. unfold coherent. simpl.
    destruct location; repeat split; assumption. }
  split.
  { split; [exact Hu | ]. unfold coherent. simpl. repeat split; assumption. }
  split.
  { split; [exact Hu | ]. unfold coherent. simpl. repeat split; assumption. }
  split.
  { unfold answer.
    destruct (b _ (InsertMessage (User.id cu) to text)) as [d e]. simpl.
    destruct e as [e | ]; simpl; [exact Hs | ].
    destruct d as [row | ]; simpl; [ | exact Hs].
    destruct (find _ (messages s)); simpl; [exact Hs | ].
    split; simpl; [exact Hu | rewrite Hcu; repeat split; assumption]. }
  destruct (channel s); exact Hempty.
Qed.

Lemma compatibility_fields_coherent_witness :
  coherent_state Sample.session /\
  coherent_state
    (state (run Sample.accepting (updateLocation Sample.uptown) Sample.session)).
Proof.
  assert (H : coherent_state Sample.session).
  { split; [repeat constructor | repeat split]. }
  split; [exact H | ].
  exact (proj1 (proj2 (proj2
           (@compatibility_fields_coherent true Sample.accepting Sample.session []
              "Alice" "u2" "hello" driver Sample.uptown true true H)))).
Defined.

(* ================================================================== *)
(** * Further properties of the visibility filter *)
(* ================================================================== *)

(** What lies within one kilometre lies within five. *)
Lemma leb_1_5 (d : number) : (d <=? 1)%float = true -> (d <=? 5)%float = true.
Proof.
  rewrite !leb_spec.
  change (Prim2SF 1) with (S754_finite false 4503599627370496 (-52)).
  change (Prim2SF 5) with (S754_finite false 5629499534213120 (-50)).
  unfold SFleb, SFcompare.
  destruct (Prim2SF d) as [s | s | | s m e]; try destruct s; try tauto.
  destruct (Z.compare_spec e (-52)); destruct (Z.compare_spec e (-50));
    try tauto; try lia; discriminate.
Qed.

Section VisibilityMore.

Variables Math_sin Math_cos : number -> number.
Variable Math_atan2 : number -> number -> number.

Local Abbreviation isVisible := (MapView_isVisible Math_sin Math_cos Math_atan2).
Local Abbreviation visibleUsers := (MapView_visibleUsers Math_sin Math_cos Math_atan2).

(** The callback reads the viewer's id, role and premium flag only. *)
Lemma isVisible_viewer_fields (v1 v2 : User.t) (position : number * number) (u : User.t) :
  User.id v1 = User.id v2 -> User.role v1 = User.role v2 ->
  User.isPremium v1 = User.isPremium v2 ->
  isVisible v1 position u = isVisible v2 position u.
Proof.
  intros Hid Hrole Hprem. unfold MapView_isVisible, visibilityRadius.
  rewrite Hid, Hrole, Hprem. reflexivity.
Qed.

Lemma isVisible_premium (v1 v2 : User.t) (position : number * number) (u : User.t) :
  User.id v1 = User.id v2 -> User.role v1 = User.role v2 ->
  User.isPremium v1 = false -> User.isPremium v2 = true ->
  isVisible v1 position u = true -> isVisible v2 position u = true.
Proof.
  intros Hid Hrole H1 H2. unfold MapView_isVisible, visibilityRadius.
  rewrite Hid, Hrole, H1, H2.
  destruct (String.eqb (User.id u) (User.id v2)); [trivial | ].
  destruct (negb (User.isOnline u)); [trivial | ].
  destruct (User.location u) as [loc | ]; [ | trivial].
  destruct (Role_eqb (User.role u) (User.role v2)); [trivial | ].
  apply leb_1_5.
Qed.

Lemma filter_incl_pointwise {A : Type} (f g : A -> bool) (l : list A) :
  (forall x, f x = true -> g x = true) ->
  forall x, In x (filter f l) -> In x (filter g l).
Proof.
  intros H x Hin. apply filter_In in Hin. apply filter_In.
  split; [tauto | apply H; tauto].
Qed.

(** X11. Premium widens the view at once.  When a viewer with a position
    switches premium on, the users listed right after the optimistic update
    (before the backend has answered) include all those listed before;
    switching it off only removes users. *)
Theorem premium_widens_view
    (b : Backend) (s : AppState) (cu : User.t) (pos : Location.t) (roster : list User.t)
    (Hsession : currentUser s = Some cu) (Hpos : User.location cu = Some pos) :
  let on := state (advance b (togglePremium true) s) in
  let off := state (advance b (togglePremium false) s) in
  exists vis vis_on vis_off,
    visibleUsers (currentUser s) roster = Some vis /\
    visibleUsers (currentUser on) roster = Some vis_on /\
    visibleUsers (currentUser off) roster = Some vis_off /\
    (forall u, In u vis -> In u vis_on) /\
    (forall u, In u vis_off -> In u vis) /\
    option_map visibilityRadius (currentUser on) = Some 5%float /\
    option_map visibilityRadius (currentUser off) = Some 1%float.
Proof.
  unfold togglePremium. simpl. rewrite Hsession. simpl.
  unfold MapView_visibleUsers. simpl. rewrite Hpos.
  do 3 eexists. split; [reflexivity | ]. split; [reflexivity | ].
  split; [reflexivity | ].
  split; [ | split; [ | split; reflexivity]].
  - destruct (User.isPremium cu) eqn:Hp.
    + apply filter_incl_pointwise. intros u H.
      erewrite isVisible_viewer_fields;
        [exact H | reflexivity | reflexivity | simpl; congruence].
    + apply filter_incl_pointwise. intros u.
      apply isVisible_premium; auto.
  - destruct (User.isPremium cu) eqn:Hp.
    + apply filter_incl_pointwise. intros u.
      apply isVisible_premium; auto.
    + apply filter_incl_pointwise. intros u H.
      erewrite isVisible_viewer_fields;
        [exact H | reflexivity | reflexivity | simpl; congruence].
Qed.

(** X12. The filter does not look at the viewer's own online flag: going
    offline or online changes nothing in what the viewer is shown, be it
    right after the optimistic update or once the backend has answered. *)
Theorem view_ignores_own_online_flag
    (b : Backend) (s : AppState) (isOnline : bool) (roster : list User.t) :
  visibleUsers (currentUser (state (advance b (toggleOnline isOnline) s))) roster
  = visibleUsers (currentUser s) roster /\
  visibleUsers (currentUser (state (run b (toggleOnline isOnline) s))) roster
  = visibleUsers (currentUser s) roster.
Proof.
  unfold toggleOnline. simpl.
  destruct (currentUser s) as [cu | ] eqn:Hcu; simpl; rewrite ?Hcu;
    [ | split; reflexivity].
  unfold MapView_visibleUsers. simpl.
  destruct (User.location cu) as [pos | ]; split; reflexivity.
Qed.

End VisibilityMore.

Lemma premium_widens_view_witness :
  currentUser Sample.session = Some Sample.alice /\
  User.location Sample.alice = Some Sample.sf /\
  option_map visibilityRadius
    (currentUser (state (advance Sample.accepting (togglePremium true) Sample.session)))
  = Some 5%float.
Proof.
  split; [reflexivity | ]. split; [reflexivity | ].
  destruct (@premium_widens_view Sample.small_angle_sin Sample.small_angle_cos
              Sample.small_angle_atan2 Sample.accepting Sample.session Sample.alice
              Sample.sf [Sample.alice; Sample.bob] eq_refl eq_refl)
    as (vis & vis_on & vis_off & _ & _ & _ & _ & _ & H & _).
  exact H.
Defined.

(* ================================================================== *)
(** * Properties of the conversations *)
(* ================================================================== *)

Lemma Set_add_In (x y : string) (s : list string) :
  In y (Set_add x s) <-> y = x \/ In y s.
Proof.
  unfold Set_add. destruct (existsb (String.eqb x) s) eqn:E.
  - apply existsb_exists in E. destruct E as (z & Hz & Hxz).
    apply String.eqb_eq in Hxz. subst z.
    split; [tauto | intros [-> | H]; assumption].
  - rewrite in_app_iff. simpl. split; intros H.
    + destruct H as [H | [H | []]]; auto.
    + destruct H as [H | H]; auto.
Qed.

Lemma Set_add_NoDup (x : string) (s : list string) : NoDup s -> NoDup (Set_add x s).
Proof.
  intros H. unfold Set_add. destruct (existsb (String.eqb x) s) eqn:E; [exact H | ].
  apply NoDup_snoc; [exact H | ].
  intros Hin. assert (Ht : existsb (String.eqb x) s = true).
  { apply existsb_exists. exists x. split; [exact Hin | apply String.eqb_refl]. }
  congruence.
Qed.

(** The predicate of the chat filter, read as a proposition. *)
Lemma chat_filter_iff (a b : string) (m : Message.t) :
  (String.eqb (Message.from m) a && String.eqb (Message.to m) b)
  || (String.eqb (Message.from m) b && String.eqb (Message.to m) a) = true
  <-> between_ids a b m.
Proof.
  unfold between_ids.
  rewrite orb_true_iff, !andb_true_iff, !String.eqb_eq. reflexivity.
Qed.

Lemma chattedUserIds_acc (cu : User.t) (messages : list Message.t) (acc : list string) :
  let step :=
    fun chattedUserIds m =>
      let chattedUserIds :=
        if String.eqb (Message.from m) (User.id cu)
        then Set_add (Message.to m) chattedUserIds else chattedUserIds in
      if String.eqb (Message.to m) (User.id cu)
      then Set_add (Message.from m) chattedUserIds else chattedUserIds in
  (NoDup acc -> NoDup (fold_left step messages acc)) /\
  forall id,
    In id (fold_left step messages acc) <->
    In id acc \/ exists m, In m messages /\ between_ids (User.id cu) id m.
Proof.
  intros step.
  assert (Hstep : forall acc m id,
             In id (step acc m) <-> In id acc \/ between_ids (User.id cu) id m).
  { intros acc0 m id. unfold step, between_ids.
    destruct (String.eqb_spec (Message.from m) (User.id cu)) as [Ef | Ef];
      destruct (String.eqb_spec (Message.to m) (User.id cu)) as [Et | Et];
      rewrite ?Set_add_In; intuition congruence. }
  revert acc. induction messages as [ | m ms IH]; intros acc.
  - simpl. split; [trivial | ]. intros id. split; [tauto | ].
    intros [H | (m & [] & _)]. exact H.
  - simpl. destruct (IH (step acc m)) as [IHn IHi]. split.
    + intros H. apply IHn. unfold step.
      destruct (String.eqb (Message.from m) (User.id cu)),
               (String.eqb (Message.to m) (User.id cu));
        auto using Set_add_NoDup.
    + intros id. rewrite IHi, Hstep. split.
      * intros [[H | H] | (m' & Hin & Hb)]; [tauto | | ].
        -- right. exists m. tauto.
        -- right. exists m'. tauto.
      * intros [H | (m' & [<- | Hin] & Hb)]; [tauto | tauto | ].
        right. exists m'. tauto.
Qed.

(** X13. The inbox lists each partner once: an id is among the chatted ids
    exactly when the log holds a message exchanged between that id and the
    current user, in either direction, and no id occurs twice. *)
Theorem inbox_partner_ids (cu : User.t) (messages : list Message.t) :
  NoDup (Inbox_chattedUserIds cu messages) /\
  forall id,
    In id (Inbox_chattedUserIds cu messages) <->
    exists m, In m messages /\ between_ids (User.id cu) id m.
Proof.
  destruct (chattedUserIds_acc cu messages []) as [Hn Hi].
  split; [apply Hn; constructor | ].
  intros id. unfold Inbox_chattedUserIds. rewrite Hi. simpl. tauto.
Qed.

Lemma Array_pop_last {A : Type} (l : list A) (x : A) :
  Array_pop l = Some x <-> exists init, l = init ++ [x].
Proof.
  unfold Array_pop. split.
  - destruct (rev l) as [ | y r] eqn:E; [discriminate | ].
    intros [= ->]. exists (rev r).
    rewrite <- (rev_involutive l), E. reflexivity.
  - intros (init & ->). rewrite rev_app_distr. reflexivity.
Qed.

Lemma Array_pop_none {A : Type} (l : list A) : Array_pop l = None <-> l = [].
Proof.
  unfold Array_pop. split.
  - destruct (rev l) as [ | y r] eqn:E; [ | discriminate].
    intros _. rewrite <- (rev_involutive l), E. reflexivity.
  - intros ->. reflexivity.
Qed.

Lemma find_id (i : string) (users : list User.t) (u : User.t) :
  find (fun u => String.eqb (User.id u) i) users = Some u ->
  In u users /\ User.id u = i.
Proof.
  intros H. apply find_some in H. destruct H as [Hin He].
  apply String.eqb_eq in He. tauto.
Qed.

Lemma chattedUsers_In
    (cu : User.t) (messages : list Message.t) (users : list User.t) (u : User.t) :
  In u (flat_map
          (fun id =>
             match find (fun u => String.eqb (User.id u) id) users with
             | Some u => [u]
             | None => []
             end)
          (Inbox_chattedUserIds cu messages)) ->
  In u users /\ In (User.id u) (Inbox_chattedUserIds cu messages).
Proof.
  intros H. apply in_flat_map in H. destruct H as (i & Hi & Hu).
  destruct (find _ users) as [v | ] eqn:Hf; [ | destruct Hu].
  destruct Hu as [<- | []]. apply find_id in Hf. destruct Hf as [Hin <-].
  split; assumption.
Qed.

Lemma chattedUsers_ids_NoDup (users : list User.t) (ids : list string) :
  NoDup ids ->
  NoDup (map User.id
           (flat_map
              (fun id =>
                 match find (fun u => String.eqb (User.id u) id) users with
                 | Some u => [u]
                 | None => []
                 end)
              ids)).
Proof.
  induction 1 as [ | i ids Hni Hn IH]; simpl; [constructor | ].
  destruct (find _ users) as [v | ] eqn:Hf; simpl; [ | exact IH].
  apply find_id in Hf. destruct Hf as [_ Hv].
  constructor; [ | exact IH].
  rewrite Hv. intros Hin. apply in_map_iff in Hin.
  destruct Hin as (w & Hw & Hin). apply in_flat_map in Hin.
  destruct Hin as (j & Hj & Hwj).
  destruct (find _ users) as [x | ] eqn:Hf'; [ | destruct Hwj].
  destruct Hwj as [<- | []]. apply find_id in Hf'. destruct Hf' as [_ Hx].
  congruence.
Qed.

Lemma inbox_filter_is_chat_filter
    (cu u : User.t) (messages : list Message.t) :
  filter
    (fun m =>
       (String.eqb (Message.from m) (User.id u)
        && String.eqb (Message.to m) (User.id cu))
       || (String.eqb (Message.from m) (User.id cu)
           && String.eqb (Message.to m) (User.id u)))
    messages
  = filter
      (fun m =>
         (String.eqb (Message.from m) (User.id cu)
          && String.eqb (Message.to m) (User.id u))
         || (String.eqb (Message.from m) (User.id u)
             && String.eqb (Message.to m) (User.id cu)))
      messages.
Proof. apply filter_ext. intros m. apply orb_comm. Qed.

(** X14. The rows of the inbox are users of the roster with pairwise distinct
    ids, and each row shows a last message: the entry at the end of the
    transcript that the chat with this user displays. *)
Theorem inbox_rows
    (cu : User.t) (messages : list Message.t) (users rows : list User.t)
    (Hrows : Inbox_chattedUsers (Some cu) messages users = Some rows) :
  NoDup (map User.id rows) /\
  forall u, In u rows ->
    In u users /\
    exists earlier last,
      Chat_chatMessages (Some cu) messages u = Some (earlier ++ [last]) /\
      Inbox_lastMessage cu messages u = Some last /\
      In last messages /\ between_ids (User.id cu) (User.id u) last.
Proof.
  simpl in Hrows. injection Hrows as <-.
  destruct (chattedUserIds_acc cu messages []) as [Hn Hi].
  fold (Inbox_chattedUserIds cu messages) in Hn, Hi.
  split; [apply chattedUsers_ids_NoDup, Hn; constructor | ].
  intros u Hu. apply chattedUsers_In in Hu. destruct Hu as [Hin Hid].
  split; [exact Hin | ].
  apply Hi in Hid. destruct Hid as [[] | (m & Hm & Hb)].
  unfold Inbox_lastMessage, Chat_chatMessages.
  rewrite (@inbox_filter_is_chat_filter cu u messages).
  set (l := filter _ messages).
  assert (Hml : In m l).
  { apply filter_In. split; [exact Hm | apply chat_filter_iff, Hb]. }
  destruct (Array_pop l) as [last | ] eqn:Hp.
  - apply Array_pop_last in Hp. destruct Hp as (earlier & Hl).
    exists earlier, last. rewrite Hl. split; [reflexivity | ].
    split; [reflexivity | ].
    assert (Hlast : In last l) by (rewrite Hl; apply in_or_app; right; left; reflexivity).
    apply filter_In in Hlast. destruct Hlast as [H1 H2].
    split; [exact H1 | apply chat_filter_iff, H2].
  - apply Array_pop_none in Hp. rewrite Hp in Hml. destruct Hml.
Qed.

Lemma inbox_rows_witness :
  exists last,
    Inbox_lastMessage Sample.alice
      [mapMessage Sample.early_row; mapMessage Sample.late_row] Sample.bob
    = Some last.
Proof.
  destruct (@inbox_rows Sample.alice
              [mapMessage Sample.early_row; mapMessage Sample.late_row]
              [Sample.alice; Sample.bob] [Sample.bob] eq_refl) as [_ H].
  destruct (H Sample.bob (or_introl eq_refl)) as (_ & earlier & last & _ & Hl & _).
  exists last. exact Hl.
Defined.

Lemma find_filter_other (d i : string) (users : list User.t) :
  find (fun u => String.eqb (User.id u) i)
       (filter (fun u => negb (String.eqb (User.id u) d)) users)
  = if String.eqb i d then None
    else find (fun u => String.eqb (User.id u) i) users.
Proof.
  induction users as [ | v users IH]; simpl.
  - destruct (String.eqb i d); reflexivity.
  - destruct (String.eqb_spec (User.id v) d) as [Ed | Ed]; simpl.
    + rewrite IH. destruct (String.eqb_spec i d) as [Ei | Ei]; [reflexivity | ].
      destruct (String.eqb_spec (User.id v) i) as [Ev | Ev]; [congruence | reflexivity].
    + destruct (String.eqb_spec (User.id v) i) as [Ev | Ev].
      * destruct (String.eqb_spec i d) as [Ei | Ei]; [congruence | reflexivity].
      * exact IH.
Qed.

(** X15. When a user is deleted, the log keeps every message exchanged with
    that user, but the inbox drops the row: after the notification the
    inbox shows exactly its former rows with another id, so the
    conversation can no longer be opened from it. *)
Theorem departed_partner_leaves_inbox
    (b : Backend) (s : AppState) (old_id : string) :
  let s' := deliver b s (UsersChanged (DELETE old_id)) in
  messages s' = messages s /\
  currentUser s' = currentUser s /\
  Inbox_chattedUsers (currentUser s') (messages s') (users s')
  = option_map (filter (fun u => negb (String.eqb (User.id u) old_id)))
      (Inbox_chattedUsers (currentUser s) (messages s) (users s)).
Proof.
  intros s'. subst s'. rewrite deliver_users. simpl.
  split; [reflexivity | ]. split; [reflexivity | ].
  unfold Inbox_chattedUsers.
  destruct (currentUser s) as [me | ]; [ | reflexivity].
  simpl. f_equal.
  induction (Inbox_chattedUserIds me (messages s)) as [ | i ids IH]; [reflexivity | ].
  simpl. rewrite filter_app, <- IH. f_equal.
  rewrite find_filter_other.
  destruct (String.eqb_spec i old_id) as [Ei | Ei].
  - destruct (find _ (users s)) as [v | ] eqn:Hf; [ | reflexivity].
    apply find_id in Hf. destruct Hf as [_ Hv]. simpl.
    rewrite Hv, Ei, String.eqb_refl. reflexivity.
  - destruct (find _ (users s)) as [v | ] eqn:Hf; [ | reflexivity].
    apply find_id in Hf. destruct Hf as [_ Hv]. simpl.
    rewrite Hv. apply String.eqb_neq in Ei. rewrite Ei. reflexivity.
Qed.

Lemma not_in_find_none (i : string) (l : list Message.t) :
  ~ In i (map Message.id l) ->
  find (fun m => String.eqb (Message.id m) i) l = None.
Proof.
  induction l as [ | m l IH]; simpl; [reflexivity | ].
  intros H. destruct (String.eqb_spec (Message.id m) i) as [E | E]; [tauto | ].
  apply IH. tauto.
Qed.

(** X16. A message that the backend stored as requested and under a new id
    shows up at once at the end of the transcript of the chat with its
    recipient, and in no other transcript. *)
Theorem sent_message_reaches_transcript
    (b : Backend) (s : AppState) (cu : User.t) (to text : string)
    (row : MessageRow.t)
    (Hsession : currentUser s = Some cu)
    (Hack : answer b (InsertMessage (User.id cu) to text) = mkResponse (Some row) None)
    (Hfrom : MessageRow.from_user row = User.id cu)
    (Hto : MessageRow.to_user row = to)
    (Hnew : ~ In (MessageRow.id row) (map Message.id (messages s))) :
  let s' := state (run b (sendMessage to text) s) in
  forall selectedUser,
    exists transcript,
      Chat_chatMessages (currentUser s) (messages s) selectedUser = Some transcript /\
      Chat_chatMessages (currentUser s') (messages s') selectedUser
      = Some (if String.eqb (User.id selectedUser) to
              then transcript ++ [mapMessage row] else transcript).
Proof.
  intros s' u. subst s'.
  unfold sendMessage. simpl. rewrite Hsession. simpl.
  unfold answer in *. rewrite Hack. simpl.
  rewrite (not_in_find_none _ _ Hnew). simpl.
  eexists. split; [reflexivity | ].
  unfold Chat_chatMessages. rewrite Hsession, filter_app. simpl. rewrite Hfrom, Hto, String.eqb_refl. simpl.
  destruct (String.eqb_spec to (User.id u)) as [E | E].
  - rewrite E, !String.eqb_refl. reflexivity.
  - destruct (String.eqb_spec (User.id u) to) as [E' | E']; [congruence | ].
    destruct (String.eqb_spec (User.id cu) (User.id u)) as [Ec | Ec]; simpl.
    + destruct (String.eqb_spec to (User.id cu)) as [Et | Et]; [congruence | ].
      rewrite app_nil_r. reflexivity.
    + rewrite app_nil_r. reflexivity.
Qed.

Lemma sent_message_reaches_transcript_witness :
  exists transcript,
    Chat_chatMessages (Some Sample.alice) [] Sample.bob = Some transcript /\
    Chat_chatMessages
      (currentUser (state (run Sample.accepting (sendMessage "u2" "hello") Sample.session)))
      (messages (state (run Sample.accepting (sendMessage "u2" "hello") Sample.session)))
      Sample.bob
    = Some (transcript
              ++ [mapMessage (MessageRow.mk "m9" "u1" "u2" "hello" "2024-01-01T00:00:09Z")]).
Proof.
  apply (@sent_message_reaches_transcript Sample.accepting Sample.session Sample.alice
           "u2" "hello" (MessageRow.mk "m9" "u1" "u2" "hello" "2024-01-01T00:00:09Z")
           eq_refl eq_refl eq_refl eq_refl (fun H => H) Sample.bob).
Defined.

(* ================================================================== *)
(** * Properties of a fetched route and of the navigation state *)
(* ================================================================== *)

Lemma swap_axes_involutive (cs : list (number * number)) :
  map swap_axes (map swap_axes cs) = cs.
Proof.
  induction cs as [ | [x y] cs IH]; simpl; [reflexivity | ].
  rewrite IH. reflexivity.
Qed.

Lemma cmap_mapStep_Normal (l : list OsrmStep.t) (steps : list RouteStep) :
  cmap mapStep l = Normal steps ->
  map step_distance steps = map OsrmStep.distance l /\
  map step_duration steps = map OsrmStep.duration l /\
  map (fun s => Some (instruction s)) steps
  = map (fun s => option_map (fun m => stepInstruction m (OsrmStep.name s))
                    (OsrmStep.maneuver s)) l.
Proof.
  revert steps. induction l as [ | x l IH]; simpl; intros steps.
  - intros [= <-]. repeat split.
  - unfold mapStep at 1. destruct (OsrmStep.maneuver x) as [m | ]; [ | discriminate].
    simpl. destruct (cmap mapStep l) as [ys | err]; [ | discriminate].
    simpl. intros [= <-]. destruct (IH ys eq_refl) as (H1 & H2 & H3).
    simpl. rewrite H1, H2, H3. repeat split.
Qed.

Lemma cmap_mapStep_Thrown (l : list OsrmStep.t) (step : OsrmStep.t) :
  In step l -> OsrmStep.maneuver step = None ->
  exists err, cmap mapStep l = Thrown err.
Proof.
  induction l as [ | x l IH]; simpl; [tauto | ].
  intros [-> | Hin] Hm.
  - unfold mapStep at 1. rewrite Hm. eexists. reflexivity.
  - unfold mapStep at 1. destruct (OsrmStep.maneuver x) as [m | ];
      [ | eexists; reflexivity].
    simpl. destruct (IH Hin Hm) as (err & ->). eexists. reflexivity.
Qed.

Section RouteMore.

Variable toString_other : number -> string.

(** X17. [fetchRoute] never rejects, and it writes to the console exactly when
    it resolves to [null], one line.  A route it does return summarizes
    the first route of an [Ok] answer and the first leg of that route: the
    geometry with the two axes of every point swapped (so that swapping
    back gives the provider's points), the distance divided by 1000 and the
    duration by 60, and one step for each step of the leg, in order, with
    the leg's distances and durations. *)
Theorem fetchRoute_summary
    (fetch : string -> FetchResult) (from to : number * number) :
  match fetchRoute toString_other fetch from to with
  | (Normal (Some d), console) =>
      console = [] /\
      exists data route others cs leg legs,
        fetch (routeUrl toString_other from to) = FetchResponse true (Json data) /\
        OsrmData.code data = "Ok" /\
        OsrmData.routes data = Some (route :: others) /\
        OsrmRoute.geometry route = Some cs /\
        OsrmRoute.legs route = leg :: legs /\
        coordinates d = map swap_axes cs /\
        map swap_axes (coordinates d) = cs /\
        totalDistance d = (OsrmRoute.distance route / 1000)%float /\
        totalDuration d = (OsrmRoute.duration route / 60)%float /\
        map step_distance (steps d) = map OsrmStep.distance (OsrmLeg.steps leg) /\
        map step_duration (steps d) = map OsrmStep.duration (OsrmLeg.steps leg) /\
        map (fun s => Some (instruction s)) (steps d)
        = map (fun s => option_map
                          (fun m => stepInstruction m (OsrmStep.name s))
                          (OsrmStep.maneuver s))
              (OsrmLeg.steps leg)
  | (Normal None, console) =>
      exists err, console = [("Route fetch error: " ++ err)%string]
  | (Thrown _, _) => False
  end.
Proof.
  unfold fetchRoute, fetchRoute_try.
  destruct (fetch (routeUrl toString_other from to)) as [reason | ok body] eqn:Hf;
    [eexists; reflexivity | ].
  destruct ok; simpl; [ | eexists; reflexivity].
  destruct body as [reason | data]; [eexists; reflexivity | ].
  destruct (String.eqb_spec (OsrmData.code data) "Ok") as [Hc | Hc]; simpl;
    [ | eexists; reflexivity].
  destruct (OsrmData.routes data) as [[ | route others] | ] eqn:Hr;
    [eexists; reflexivity | | eexists; reflexivity].
  destruct (OsrmRoute.geometry route) as [cs | ] eqn:Hg; [ | eexists; reflexivity].
  destruct (OsrmRoute.legs route) as [ | leg legs] eqn:Hl; [eexists; reflexivity | ].
  destruct (cmap mapStep (OsrmLeg.steps leg)) as [steps | err] eqn:Hs;
    simpl; [ | eexists; reflexivity].
  split; [reflexivity | ].
  exists data, route, others, cs, leg, legs.
  destruct (@cmap_mapStep_Normal _ _ Hs) as (H1 & H2 & H3).
  split; [reflexivity | ]. split; [exact Hc | ]. split; [exact Hr | ].
  split; [exact Hg | ]. split; [exact Hl | ]. split; [reflexivity | ].
  split; [apply swap_axes_involutive | ]. split; [reflexivity | ].
  split; [reflexivity | ]. split; [exact H1 | ]. split; [exact H2 | exact H3].
Qed.

(** X18. One malformed part of an otherwise good answer loses the whole route:
    when the first route has no geometry or no leg, or when any step of
    its first leg comes without a maneuver, [fetchRoute] resolves to
    [null]. *)
Theorem fetchRoute_malformed_answer
    (fetch : string -> FetchResult) (from to : number * number)
    (data : OsrmData.t) (route : OsrmRoute.t) (others : list OsrmRoute.t)
    (Hanswer : fetch (routeUrl toString_other from to) = FetchResponse true (Json data))
    (Hroutes : OsrmData.routes data = Some (route :: others))
    (Hmalformed :
       OsrmRoute.geometry route = None \/
       OsrmRoute.legs route = [] \/
       exists leg legs step,
         OsrmRoute.legs route = leg :: legs /\
         In step (OsrmLeg.steps leg) /\ OsrmStep.maneuver step = None) :
  fst (fetchRoute toString_other fetch from to) = Normal None.
Proof.
  unfold fetchRoute, fetchRoute_try. rewrite Hanswer. simpl.
  destruct (negb (String.eqb (OsrmData.code data) "Ok")); simpl; [reflexivity | ].
  rewrite Hroutes.
  destruct (OsrmRoute.geometry route) as [cs | ] eqn:Hg; [ | reflexivity].
  destruct Hmalformed as [H | [H | (leg & legs & step & Hl & Hin & Hm)]];
    [discriminate | rewrite H; reflexivity | ].
  rewrite Hl. destruct (@cmap_mapStep_Thrown _ _ Hin Hm) as (err & ->).
  reflexivity.
Qed.

(** ** Navigation *)

(** X19. Whatever the navigation state was and whatever the provider answers,
    a navigation that runs undisturbed ends with its destination set, not
    loading, the step list folded, and either the fetched route and no
    error, or no route and the fixed error text. *)
Theorem startNavigation_outcome
    (fetch : string -> FetchResult) (from to : number * number) (st : NavState) :
  let st' := startNavigation toString_other fetch from to st in
  routeTo st' = Some to /\
  routeLoading st' = false /\
  showSteps st' = false /\
  ((exists d,
      fst (fetchRoute toString_other fetch from to) = Normal (Some d) /\
      routeData st' = Some d /\ routeError st' = None) \/
   (fst (fetchRoute toString_other fetch from to) = Normal None /\
    routeData st' = None /\
    routeError st' = Some "Could not find a route. Please try again.")).
Proof.
  intros st'. subst st'. unfold startNavigation.
  pose proof (fetchRoute_summary fetch from to) as H.
  destruct (fetchRoute toString_other fetch from to) as [[[d | ] | err] console]; simpl in *.
  - repeat split. left. exists d. repeat split.
  - repeat split. right. repeat split.
  - destruct H.
Qed.

(** X20. A navigation ended while its request is in flight is not over: the
    answer is applied to the cleared state when it arrives, so that the
    state ends with no destination but with the late route, or with the
    error text, and differs from the cleared state. *)
Theorem late_answer_after_endNavigation
    (fetch : string -> FetchResult) (from to : number * number) (st : NavState) :
  let loading := startNavigation_begin to st in
  let settled := fst (fetchRoute toString_other fetch from to) in
  let st' := startNavigation_resume settled (endNavigation loading) in
  routeLoading loading = true /\
  endNavigation loading = nav_initial /\
  routeTo st' = None /\
  routeLoading st' = false /\
  st' <> nav_initial /\
  ((exists d, settled = Normal (Some d) /\ routeData st' = Some d /\ routeError st' = None) \/
   (settled = Normal None /\ routeData st' = None /\
    routeError st' = Some "Could not find a route. Please try again.")).
Proof.
  intros loading settled st'. subst loading settled st'.
  pose proof (fetchRoute_summary fetch from to) as H.
  destruct (fetchRoute toString_other fetch from to) as [[[d | ] | err] console]; simpl in *.
  - repeat split; [discriminate | ]. left. exists d. repeat split.
  - repeat split; [discriminate | ]. right. repeat split.
  - destruct H.
Qed.

End RouteMore.

Lemma fetchRoute_malformed_answer_witness :
  let route := OsrmRoute.mk (Some [(1, 2)%float]) [] 1200%float 90%float in
  let fetch :=
    fun _ : string => FetchResponse true (Json (OsrmData.mk "Ok" (Some [route]))) in
  fst (fetchRoute (fun _ => "?") fetch (1, 2)%float (3, 4)%float) = Normal None.
Proof.
  intros route fetch.
  apply (@fetchRoute_malformed_answer (fun _ => "?") fetch (1, 2)%float (3, 4)%float
           (OsrmData.mk "Ok" (Some [route])) route [] eq_refl eq_refl).
  right. left. reflexivity.
Defined.

(* ================================================================== *)
(** * The formats at their unit boundaries *)
(* ================================================================== *)

(** A number between two positive bounds of one binade lies in that
    binade, its mantissa between theirs. *)
Lemma between_exact (lo hi x : number) (ml mh : positive) (e0 : Z) :
  Prim2SF lo = S754_finite false ml e0 ->
  Prim2SF hi = S754_finite false mh e0 ->
  (lo <=? x)%float = true -> (x <? hi)%float = true ->
  exists m, Prim2SF x = S754_finite false m e0 /\ (Z.pos ml <= Z.pos m < Z.pos mh)%Z.
Proof.
  intros Hlo Hhi. rewrite leb_spec, ltb_spec, Hlo, Hhi.
  unfold SFleb, SFltb, SFcompare.
  destruct (Prim2SF x) as [s | s | | s m e]; try destruct s; try discriminate.
  destruct (Z.compare_spec e0 e) as [E | E | E]; try discriminate.
  - subst e. rewrite Z.compare_refl.
    change (Pos.compare_cont Eq ml m) with (Pos.compare ml m).
    change (Pos.compare_cont Eq m mh) with (Pos.compare m mh).
    destruct (Pos.compare_spec ml m); try discriminate;
      destruct (Pos.compare_spec m mh); try discriminate;
      intros _ _; exists m; split; try reflexivity; lia.
  - destruct (Z.compare_spec e e0) as [E' | E' | E']; try lia; discriminate.
Qed.

(** In the half unit below a whole number [N] of the binade, the nearest
    integer is [N]. *)
Lemma roundZ_top (N : Z) (m ml mh : positive) (e0 : Z) :
  (e0 < 0)%Z ->
  (2 * Z.pos ml = (2 * N - 1) * 2 ^ (- e0))%Z ->
  (Z.pos mh = N * 2 ^ (- e0))%Z ->
  (Z.pos ml <= Z.pos m < Z.pos mh)%Z ->
  roundZ false m e0 = N.
Proof.
  intros He Hl Hh Hm.
  assert (Hr := @roundZ_nearest false m e0 He). cbv zeta in Hr. simpl cond_Zopp in Hr.
  set (n := roundZ false m e0) in *.
  assert (Hk : (0 < 2 ^ (- e0))%Z) by (apply Z.pow_pos_nonneg; lia).
  nia.
Qed.

(** X21. Just below a unit boundary the rounded count reaches the boundary
    itself: from 59.5 minutes up to, but not including, 60 the duration
    reads [60 min], and from 999.5 meters up to, but not including, 1000 the
    distance reads [1000 m]. *)
Theorem format_below_boundary
    (toString_other : number -> string) (minutes meters : number)
    (Hmin_lo : (59.5 <=? minutes)%float = true) (Hmin_hi : (minutes <? 60)%float = true)
    (Hm_lo : (999.5 <=? meters)%float = true) (Hm_hi : (meters <? 1000)%float = true) :
  formatDuration toString_other minutes = "60 min" /\
  formatDistance toString_other meters = "1000 m".
Proof.
  split.
  - destruct (@between_exact 59.5%float 60%float minutes
                8373880557142016%positive 8444249301319680%positive (-47)%Z
                eq_refl eq_refl Hmin_lo Hmin_hi) as (m & Hx & Hm).
    assert (Hn : roundZ false m (-47) = 60%Z)
      by (apply (@roundZ_top 60%Z m 8373880557142016%positive 8444249301319680%positive
                    (-47)%Z);
          [lia | reflexivity | reflexivity | exact Hm]).
    unfold formatDuration. rewrite Hmin_hi.
    assert (H1 : (minutes <? 1)%float = false)
      by (rewrite ltb_spec, Hx; reflexivity).
    rewrite H1. unfold Math_round. rewrite Hx. simpl (0 <=? -47)%Z. cbv iota zeta.
    rewrite Hn. reflexivity.
  - destruct (@between_exact 999.5%float 1000%float meters
                8791694975696896%positive 8796093022208000%positive (-43)%Z
                eq_refl eq_refl Hm_lo Hm_hi) as (m & Hx & Hm).
    assert (Hn : roundZ false m (-43) = 1000%Z)
      by (apply (@roundZ_top 1000%Z m 8791694975696896%positive 8796093022208000%positive
                    (-43)%Z);
          [lia | reflexivity | reflexivity | exact Hm]).
    unfold formatDistance. rewrite Hm_hi.
    unfold Math_round. rewrite Hx. simpl (0 <=? -43)%Z. cbv iota zeta.
    rewrite Hn. reflexivity.
Qed.

Lemma format_below_boundary_witness :
  formatDuration (fun _ => "?") 59.75%float = "60 min" /\
  formatDistance (fun _ => "?") 999.5%float = "1000 m".
Proof.
  apply (@format_below_boundary (fun _ => "?") 59.75%float 999.5%float);
    reflexivity.
Defined.

(* ================================================================== *)
(** * Properties of the socket server *)
(* ================================================================== *)

Module ServerFacts.
Import Server.

Lemma Map_get_set (k k' : string) (v : User) (m : UserMap) :
  Map_get k' (Map_set k v m) = if String.eqb k k' then Some v else Map_get k' m.
Proof.
  induction m as [ | [k0 v0] m IH]; simpl.
  - reflexivity.
  - destruct (String.eqb_spec k0 k) as [E | E]; simpl.
    + subst k0. destruct (String.eqb k k'); reflexivity.
    + rewrite IH. destruct (String.eqb_spec k0 k') as [E' | E']; [ | reflexivity].
      subst k0. apply String.eqb_neq in E. rewrite String.eqb_sym, E. reflexivity.
Qed.

Lemma Map_get_In (k : string) (v : User) (m : UserMap) :
  Map_get k m = Some v -> In (k, v) m.
Proof.
  induction m as [ | [k0 v0] m IH]; simpl; [discriminate | ].
  destruct (String.eqb_spec k0 k) as [E | E].
  - intros [= ->]. left. congruence.
  - intros H. right. apply IH, H.
Qed.

Lemma Map_get_None (k : string) (m : UserMap) :
  Map_get k m = None <-> ~ In k (Map_keys m).
Proof.
  induction m as [ | [k0 v0] m IH]; simpl; [tauto | ].
  destruct (String.eqb_spec k0 k) as [E | E].
  - split; [discriminate | tauto].
  - rewrite IH. tauto.
Qed.

Lemma Map_keys_set_present (k : string) (v v' : User) (m : UserMap) :
  Map_get k m = Some v' -> Map_keys (Map_set k v m) = Map_keys m.
Proof.
  induction m as [ | [k0 v0] m IH]; simpl; [discriminate | ].
  destruct (String.eqb_spec k0 k) as [E | E]; simpl; [reflexivity | ].
  intros H. rewrite (IH H). reflexivity.
Qed.

Lemma Map_keys_set_absent (k : string) (v : User) (m : UserMap) :
  Map_get k m = None -> Map_set k v m = m ++ [(k, v)].
Proof.
  induction m as [ | [k0 v0] m IH]; simpl; [reflexivity | ].
  destruct (String.eqb_spec k0 k) as [E | E]; simpl; [discriminate | ].
  intros H. rewrite (IH H). reflexivity.
Qed.

Lemma Map_delete_absent (k : string) (m : UserMap) :
  Map_get k m = None -> Map_delete k m = m.
Proof.
  induction m as [ | [k0 v0] m IH]; simpl; [reflexivity | ].
  destruct (String.eqb_spec k0 k) as [E | E]; simpl; [discriminate | ].
  intros H. rewrite (IH H). reflexivity.
Qed.

Lemma Map_delete_snoc (k : string) (v : User) (m : UserMap) :
  Map_get k m = None -> Map_delete k (m ++ [(k, v)]) = m.
Proof.
  induction m as [ | [k0 v0] m IH]; simpl.
  - rewrite String.eqb_refl. reflexivity.
  - destruct (String.eqb_spec k0 k) as [E | E]; simpl; [discriminate | ].
    intros H. rewrite (IH H). reflexivity.
Qed.

Lemma Map_delete_keys (k : string) (m : UserMap) (k' : string) :
  In k' (Map_keys (Map_delete k m)) -> In k' (Map_keys m).
Proof.
  induction m as [ | [k0 v0] m IH]; simpl; [tauto | ].
  destruct (String.eqb_spec k0 k) as [E | E]; simpl; tauto.
Qed.

Lemma Map_delete_incl (k : string) (m : UserMap) (kv : string * User) :
  In kv (Map_delete k m) -> In kv m.
Proof.
  induction m as [ | [k0 v0] m IH]; simpl; [tauto | ].
  destruct (String.eqb_spec k0 k) as [E | E]; simpl; tauto.
Qed.

Lemma Map_delete_NoDup (k : string) (m : UserMap) :
  NoDup (Map_keys m) -> NoDup (Map_keys (Map_delete k m)).
Proof.
  induction m as [ | [k0 v0] m IH]; simpl; [trivial | ].
  intros H. inversion H as [ | ? ? Hn Hd]; subst.
  destruct (String.eqb_spec k0 k) as [E | E]; simpl; [exact Hd | ].
  constructor; [ | apply IH, Hd].
  intros Hin. apply Hn. eapply Map_delete_keys, Hin.
Qed.

Lemma Map_set_In (k : string) (v : User) (m : UserMap) (kv : string * User) :
  In kv (Map_set k v m) -> kv = (k, v) \/ In kv m.
Proof.
  induction m as [ | [k0 v0] m IH]; simpl.
  - intros [<- | []]. left. reflexivity.
  - destruct (String.eqb_spec k0 k) as [E | E]; simpl.
    + intros [<- | H]; [left; congruence | right; right; exact H].
    + intros [<- | H]; [right; left; reflexivity | ].
      destruct (IH H); [left | right; right]; assumption.
Qed.

Lemma Map_set_NoDup (k : string) (v : User) (m : UserMap) :
  NoDup (Map_keys m) -> NoDup (Map_keys (Map_set k v m)).
Proof.
  intros H. destruct (Map_get k m) as [v' | ] eqn:Hg.
  - rewrite (@Map_keys_set_present _ v _ _ Hg). exact H.
  - rewrite (@Map_keys_set_absent _ v _ Hg). unfold Map_keys. rewrite map_app. simpl.
    apply NoDup_snoc; [exact H | ]. apply Map_get_None, Hg.
Qed.

Lemma well_keyed_set (k : string) (v : User) (m : UserMap) :
  id v = k -> socketId v = k -> well_keyed m -> well_keyed (Map_set k v m).
Proof.
  intros Hi Hs [Hn Hf]. split; [apply Map_set_NoDup, Hn | ].
  rewrite Forall_forall in *. intros kv Hin.
  apply Map_set_In in Hin. destruct Hin as [-> | Hin]; [simpl; tauto | ].
  apply Hf, Hin.
Qed.

Lemma well_keyed_delete (k : string) (m : UserMap) :
  well_keyed m -> well_keyed (Map_delete k m).
Proof.
  intros [Hn Hf]. split; [apply Map_delete_NoDup, Hn | ].
  rewrite Forall_forall in *. intros kv Hin. apply Hf.
  eapply Map_delete_incl, Hin.
Qed.

Lemma well_keyed_get (k : string) (v : User) (m : UserMap) :
  well_keyed m -> Map_get k m = Some v -> id v = k /\ socketId v = k.
Proof.
  intros [_ Hf] Hg. apply Map_get_In in Hg.
  rewrite Forall_forall in Hf. apply (Hf _ Hg).
Qed.

Lemma handle_keeps_well_keyed
    (env : Env) (socket_id : string) (ev : ClientEvent) (st : State) :
  well_keyed (users st) -> well_keyed (users (fst (handle env socket_id ev st))).
Proof.
  intros H. destruct ev as [userData | location | on | premium | to text | ]; simpl.
  - apply well_keyed_set; [reflexivity | reflexivity | exact H].
  - destruct (Map_get socket_id (users st)) as [u | ] eqn:Hg; simpl; [ | exact H].
    destruct (@well_keyed_get _ _ _ H Hg) as [Hi Hs].
    apply well_keyed_set; [exact Hi | exact Hs | exact H].
  - destruct (Map_get socket_id (users st)) as [u | ] eqn:Hg; simpl; [ | exact H].
    destruct (@well_keyed_get _ _ _ H Hg) as [Hi Hs].
    apply well_keyed_set; [exact Hi | exact Hs | exact H].
  - destruct (Map_get socket_id (users st)) as [u | ] eqn:Hg; simpl; [ | exact H].
    destruct (@well_keyed_get _ _ _ H Hg) as [Hi Hs].
    apply well_keyed_set; [exact Hi | exact Hs | exact H].
  - destruct (Map_get socket_id (users st)) as [u | ]; simpl; exact H.
  - apply well_keyed_delete, H.
Qed.

Lemma initial_well_keyed : well_keyed (users initial).
Proof.
  split.
  - repeat constructor; simpl; intuition discriminate.
  - repeat constructor.
Qed.

Lemma handle_all_fst
    (evs : list (Env * string * ClientEvent)) (st : State) :
  fst (handle_all evs st) =
  fold_left (fun st e => fst (handle (fst (fst e)) (snd (fst e)) (snd e) st)) evs st.
Proof.
  revert st. induction evs as [ | [[env sid] ev] evs IH]; intros st; [reflexivity | ].
  simpl. destruct (handle env sid ev st) as [st1 out1] eqn:H1.
  specialize (IH st1). destruct (handle_all evs st1) as [st2 out2].
  simpl in *. exact IH.
Qed.

Lemma Map_get_delete_other (k k' : string) (m : UserMap) :
  k <> k' -> Map_get k' (Map_delete k m) = Map_get k' m.
Proof.
  intros Hk. induction m as [ | [k0 v0] m IH]; simpl; [reflexivity | ].
  destruct (String.eqb_spec k0 k) as [E | E]; simpl.
  - destruct (String.eqb_spec k0 k') as [E' | E']; [congruence | reflexivity].
  - rewrite IH. reflexivity.
Qed.

Lemma Map_get_delete_same (k : string) (m : UserMap) :
  NoDup (Map_keys m) -> Map_get k (Map_delete k m) = None.
Proof.
  induction m as [ | [k0 v0] m IH]; simpl; [reflexivity | ].
  intros H. inversion H as [ | ? ? Hn Hd]; subst.
  destruct (String.eqb_spec k0 k) as [E | E]; simpl.
  - subst k0. apply Map_get_None, Hn.
  - apply String.eqb_neq in E. rewrite E. apply IH, Hd.
Qed.

Lemma roster_broadcasts_app (out1 out2 : list Emit) :
  roster_broadcasts (out1 ++ out2) = roster_broadcasts out1 ++ roster_broadcasts out2.
Proof. apply flat_map_app. Qed.

Lemma handle_broadcast
    (env : Env) (socket_id : string) (ev : ClientEvent) (st : State) :
  let st' := fst (handle env socket_id ev st) in
  let out := snd (handle env socket_id ev st) in
  (roster_broadcasts out = [] /\ users st' = users st) \/
  roster_broadcasts out = [Map_values (users st')].
Proof.
  destruct ev as [userData | location | on | premium | to text | ]; simpl.
  - right. reflexivity.
  - destruct (Map_get socket_id (users st)); simpl; [right | left]; auto.
  - destruct (Map_get socket_id (users st)); simpl; [right | left]; auto.
  - destruct (Map_get socket_id (users st)); simpl; [right | left]; auto.
  - destruct (Map_get socket_id (users st)); simpl; [ | left; auto].
    left. split; [ | reflexivity].
    destruct (Map_get to (users st)); reflexivity.
  - right. reflexivity.
Qed.

End ServerFacts.

(** X22. From start-up on, whatever events arrive on whatever sockets, the
    users map of the server holds at most one user per key, and every
    user is stored under its own id, which is also its socket id. *)
Theorem server_users_well_keyed (evs : list (Server.Env * string * Server.ClientEvent)) :
  well_keyed (Server.users (fst (Server.handle_all evs Server.initial))).
Proof.
  rewrite ServerFacts.handle_all_fst.
  generalize ServerFacts.initial_well_keyed. generalize Server.initial.
  induction evs as [ | e evs IH]; intros st H; [exact H | ].
  simpl. apply IH, ServerFacts.handle_keeps_well_keyed, H.
Qed.

(** X23. A socket that has not logged in can change nothing: its location
    updates, its toggles and its messages leave the state as it is and
    send nothing to anyone.  Its disconnection leaves the state as it is
    too, but still broadcasts the unchanged roster. *)
Theorem unregistered_socket_ignored
    (env : Server.Env) (socket_id : string) (ev : Server.ClientEvent) (st : Server.State)
    (Hunknown : Server.Map_get socket_id (Server.users st) = None) :
  match ev with
  | Server.login _ => True
  | Server.disconnect =>
      Server.handle env socket_id ev st
      = (st, [Server.ToAll (Server.users_update (Server.Map_values (Server.users st)))])
  | _ => Server.handle env socket_id ev st = (st, [])
  end.
Proof.
  destruct ev; simpl; rewrite ?Hunknown; try reflexivity; try exact I.
  rewrite (@ServerFacts.Map_delete_absent _ _ Hunknown). destruct st; reflexivity.
Qed.

Lemma unregistered_socket_ignored_witness :
  Server.handle (Server.mkEnv "k3x9" 1700000000000%float) "socket-1"
    (Server.send_message "mock1" "hello") Server.initial
  = (Server.initial, []).
Proof.
  apply (@unregistered_socket_ignored (Server.mkEnv "k3x9" 1700000000000%float)
           "socket-1" (Server.send_message "mock1" "hello") Server.initial).
  reflexivity.
Defined.

(** X24. A message of a logged-in socket is appended to the server's log
    under the sender's own id.  It is sent to the recipient's socket if the
    recipient is in the users map, and then back to the sender, so a
    message to oneself arrives twice; it is never broadcast, and the users
    map stays as it is. *)
Theorem send_message_delivery
    (env : Server.Env) (socket_id to text : string) (st : Server.State)
    (fromUser : Server.User)
    (Hkeyed : well_keyed (Server.users st))
    (Hsender : Server.Map_get socket_id (Server.users st) = Some fromUser) :
  let message :=
    Server.mkMessage (Server.random_id env) socket_id to text (Server.now env) in
  let st' := fst (Server.handle env socket_id (Server.send_message to text) st) in
  let out := snd (Server.handle env socket_id (Server.send_message to text) st) in
  Server.users st' = Server.users st /\
  Server.messages st' = Server.messages st ++ [message] /\
  out = map (fun sid => Server.ToSocket sid (Server.receive_message message))
            (message_recipients out) /\
  message_recipients out
  = match Server.Map_get to (Server.users st) with
    | Some _ => [to; socket_id]
    | None => [socket_id]
    end /\
  (to = socket_id -> message_recipients out = [socket_id; socket_id]).
Proof.
  intros message st' out. subst message st' out. simpl. rewrite Hsender. simpl.
  destruct (@ServerFacts.well_keyed_get _ _ _ Hkeyed Hsender) as [Hid _].
  rewrite Hid.
  split; [reflexivity | ]. split; [reflexivity | ].
  destruct (Server.Map_get to (Server.users st)) as [toUser | ] eqn:Hto; simpl.
  - destruct (@ServerFacts.well_keyed_get _ _ _ Hkeyed Hto) as [_ Hsock].
    rewrite Hsock. split; [reflexivity | ]. split; [reflexivity | ].
    intros ->. reflexivity.
  - split; [reflexivity | ]. split; [reflexivity | ].
    intros ->. congruence.
Qed.

Lemma send_message_delivery_witness :
  message_recipients
    (snd (Server.handle (Server.mkEnv "k3x9" 1700000000000%float) "mock1"
            (Server.send_message "mock2" "hello") Server.initial))
  = ["mock2"; "mock1"].
Proof.
  exact (proj1 (proj2 (proj2 (proj2
           (@send_message_delivery (Server.mkEnv "k3x9" 1700000000000%float)
              "mock1" "mock2" "hello" Server.initial
              (Server.mkUser "mock1" "mock1" "Alice (Driver)" driver
                 (Some (Location.mk 37.7749 (-122.4194))%float) true false)
              ServerFacts.initial_well_keyed eq_refl))))).
Defined.

(** X25. The roster last broadcast is the server's roster: over any run of
    events from any state, if no roster was broadcast the users map has
    not changed, and otherwise the last broadcast lists exactly the users
    of the final map, in the order of the map. *)
Theorem last_broadcast_is_roster
    (evs : list (Server.Env * string * Server.ClientEvent)) (st : Server.State) :
  let st' := fst (Server.handle_all evs st) in
  let out := snd (Server.handle_all evs st) in
  match rev (roster_broadcasts out) with
  | [] => Server.users st' = Server.users st
  | latest :: _ => latest = Server.Map_values (Server.users st')
  end.
Proof.
  revert st. induction evs as [ | [[env sid] ev] evs IH]; intros st; [reflexivity | ].
  simpl. pose proof (ServerFacts.handle_broadcast env sid ev st) as H1.
  destruct (Server.handle env sid ev st) as [st1 out1].
  specialize (IH st1). destruct (Server.handle_all evs st1) as [st2 out2].
  simpl in *. rewrite ServerFacts.roster_broadcasts_app, rev_app_distr.
  destruct (rev (roster_broadcasts out2)) as [ | latest rest]; simpl.
  - destruct H1 as [[-> H1] | ->]; simpl; congruence.
  - exact IH.
Qed.

(** X26. A login followed by the disconnection of the same socket leaves no
    entry for that socket, touches no other entry and no message; if the
    socket was not in the map before, the state is back where it was. *)
Theorem login_disconnect_round_trip
    (env env' : Server.Env) (socket_id : string) (userData : Server.LoginData)
    (st : Server.State)
    (Hkeyed : well_keyed (Server.users st)) :
  let st1 := fst (Server.handle env socket_id (Server.login userData) st) in
  let st2 := fst (Server.handle env' socket_id Server.disconnect st1) in
  Server.Map_get socket_id (Server.users st1)
  = Some (Server.mkUser socket_id socket_id
            (Server.login_name userData) (Server.login_role userData)
            (Server.login_location userData) (Server.login_isOnline userData)
            (Server.login_isPremium userData)) /\
  Server.Map_get socket_id (Server.users st2) = None /\
  (forall k, k <> socket_id ->
     Server.Map_get k (Server.users st2) = Server.Map_get k (Server.users st)) /\
  Server.messages st2 = Server.messages st /\
  (Server.Map_get socket_id (Server.users st) = None -> st2 = st).
Proof.
  intros st1 st2. subst st1 st2. simpl.
  split; [rewrite ServerFacts.Map_get_set, String.eqb_refl; reflexivity | ].
  split.
  { apply ServerFacts.Map_get_delete_same, ServerFacts.Map_set_NoDup, Hkeyed. }
  split.
  { intros k Hk. rewrite ServerFacts.Map_get_delete_other by congruence.
    rewrite ServerFacts.Map_get_set.
    destruct (String.eqb_spec socket_id k); [congruence | reflexivity]. }
  split; [reflexivity | ].
  intros Hnone. rewrite (@ServerFacts.Map_keys_set_absent _ _ _ Hnone).
  rewrite (@ServerFacts.Map_delete_snoc _ _ _ Hnone). destruct st; reflexivity.
Qed.

Lemma login_disconnect_round_trip_witness :
  fst (Server.handle (Server.mkEnv "k3x9" 1700000000000%float) "socket-1"
         Server.disconnect
         (fst (Server.handle (Server.mkEnv "k3x9" 1700000000000%float) "socket-1"
                 (Server.login (Server.mkLogin "Frank" passenger None false false))
                 Server.initial)))
  = Server.initial.
Proof.
  exact (proj2 (proj2 (proj2 (proj2
           (@login_disconnect_round_trip
              (Server.mkEnv "k3x9" 1700000000000%float)
              (Server.mkEnv "k3x9" 1700000000000%float)
              "socket-1" (Server.mkLogin "Frank" passenger None false false)
              Server.initial ServerFacts.initial_well_keyed)))) eq_refl).
Defined.

(** X27. An update from a logged-in socket rewrites that socket's own entry
    and nothing else: the keys keep their order, every other entry and the
    log are untouched, and in the own entry only the addressed field
    changes. *)
Theorem update_touches_own_entry
    (env : Server.Env) (socket_id : string) (ev : Server.ClientEvent)
    (st : Server.State) (user : Server.User)
    (Hregistered : Server.Map_get socket_id (Server.users st) = Some user) :
  let st' := fst (Server.handle env socket_id ev st) in
  match ev with
  | Server.update_location _ | Server.toggle_online _ | Server.toggle_premium _ =>
      Server.Map_keys (Server.users st') = Server.Map_keys (Server.users st) /\
      Server.messages st' = Server.messages st /\
      (forall k, k <> socket_id ->
         Server.Map_get k (Server.users st') = Server.Map_get k (Server.users st)) /\
      Server.Map_get socket_id (Server.users st')
      = Some (Server.mkUser (Server.id user) (Server.socketId user)
                (Server.name user) (Server.role user)
                match ev with
                | Server.update_location location => Some location
                | _ => Server.location user
                end
                match ev with
                | Server.toggle_online isOnline => isOnline
                | _ => Server.isOnline user
                end
                match ev with
                | Server.toggle_premium isPremium => isPremium
                | _ => Server.isPremium user
                end)
  | _ => True
  end.
Proof.
  intros st'. subst st'.
  destruct ev as [userData | location | on | premium | to text | ]; simpl;
    try exact I; rewrite Hregistered; simpl.
  all: split; [eapply ServerFacts.Map_keys_set_present, Hregistered | ].
  all: split; [reflexivity | ].
  all: split; [ | rewrite ServerFacts.Map_get_set, String.eqb_refl; reflexivity].
  all: intros k Hk; rewrite ServerFacts.Map_get_set.
  all: destruct (String.eqb_spec socket_id k); [congruence | reflexivity].
Qed.

Lemma update_touches_own_entry_witness :
  Server.Map_keys
    (Server.users
       (fst (Server.handle (Server.mkEnv "k3x9" 1700000000000%float) "mock5"
               (Server.toggle_online true) Server.initial)))
  = Server.Map_keys (Server.users Server.initial).
Proof.
  exact (proj1
           (@update_touches_own_entry (Server.mkEnv "k3x9" 1700000000000%float)
              "mock5" (Server.toggle_online true) Server.initial
              (Server.mkUser "mock5" "mock5" "Eve (Driver)" driver
                 (Some (Location.mk 37.7749 (-122.4194))%float) false false)
              eq_refl)).
Defined.
